(** * somanypatterns: the Abstract Factory and Builder demos

    A shallow embedding of [abstract_factory/main.cpp] and [builder/main.cpp].
    Both programs allocate objects with [new], reach them through pointers,
    call virtual methods and print to [std::cout].  The embedding keeps that
    shape: objects live in a heap indexed by locations, a method takes its
    [this] pointer, a virtual call dispatches on the class of the object
    found in the heap, and every effect goes through one state-and-failure
    monad.  Failure stands for undefined behaviour (a dangling or
    indeterminate pointer, a pointer to an object of the wrong class). *)

From Stdlib Require Import ZArith Ascii.
From stdpp Require Import gmap strings.

Local Open Scope Z_scope.

(** ** The machine: heap, allocation log and standard output *)

Definition loc := positive.

(** [std::endl]: a line feed (the flush is not observable here). *)
Definition endl : string := String "010"%char EmptyString.

Section machine.
Context {object : Type}.

(** [heap] holds the live objects; [news] logs every object a [new]
    expression has constructed, oldest first; [cout] is what has been
    written to standard output so far. *)
Record state := State {
  heap : gmap loc object;
  news : list object;
  cout : string
}.

Definition init : state := State ∅ [] "".

Definition Exec (A : Type) : Type := state → option (A * state).

Definition ret {A} (a : A) : Exec A := λ s, Some (a, s).

Definition bind {A B} (m : Exec A) (f : A → Exec B) : Exec B :=
  λ s, match m s with
       | Some (a, s') => f a s'
       | None => None
       end.

(** Undefined behaviour. *)
Definition undefined {A} : Exec A := λ _, None.

(** [new T]: storage at a location that is not live, holding the object
    as its constructor leaves it. *)
Definition new (o : object) : Exec loc :=
  λ s, let l := fresh (dom (heap s)) in
       Some (l, State (<[l := o]> (heap s)) (news s ++ [o]) (cout s)).

(** Reading through a pointer. *)
Definition load (l : loc) : Exec object :=
  λ s, match heap s !! l with
       | Some o => Some (o, s)
       | None => None
       end.

(** Writing through a pointer. *)
Definition store (l : loc) (o : object) : Exec unit :=
  λ s, match heap s !! l with
       | Some _ => Some (tt, State (<[l := o]> (heap s)) (news s) (cout s))
       | None => None
       end.

(** Releasing the storage of a live object. *)
Definition free (l : loc) : Exec unit :=
  λ s, match heap s !! l with
       | Some _ => Some (tt, State (delete l (heap s)) (news s) (cout s))
       | None => None
       end.

(** [std::cout << str]. *)
Definition print (str : string) : Exec unit :=
  λ s, Some (tt, State (heap s) (news s) (cout s +:+ str)).
End machine.

Arguments state : clear implicits.
Arguments Exec : clear implicits.

Global Instance exec_ret {object} : MRet (Exec object) := @ret object.
Global Instance exec_bind {object} : MBind (Exec object) :=
  λ A B f m, bind m f.

(** The families that were active in a run: those of the objects it
    constructed, each listed once. *)
Section families.
Context {object family_t : Type} `{EqDecision family_t}.
Variable family : object → option family_t.

Definition active_families (s : state object) : list family_t :=
  remove_dups (omap family (news s)).

Definition one_family_active (s : state object) : Prop :=
  ∃ p, active_families s = [p].
End families.

(** ** abstract_factory/main.cpp *)

Module AbstractFactory.

(** The concrete classes of the program; [m_text] is the member that
    [TextEdit] declares for both of its subclasses. *)
Inductive object :=
| WindowsButton
| WindowsTextEdit (m_text : string)
| MacOSButton
| MacOSTextEdit (m_text : string)
| WindowsWindowApplication
| MacOSWindowApplication.

Abbreviation Exec := (Exec object).

(** *** Button *)

Definition WindowsButton_buttonClick (this : loc) : Exec unit :=
  print ("Windows button was clicked" +:+ endl).

Definition MacOSButton_buttonClick (this : loc) : Exec unit :=
  print ("MacOS button was clicked" +:+ endl).

(** [button->buttonClick()] through a [Button *]. *)
Definition Button_buttonClick (this : loc) : Exec unit :=
  o ← load this;
  match o with
  | WindowsButton => WindowsButton_buttonClick this
  | MacOSButton => MacOSButton_buttonClick this
  | _ => undefined
  end.

(** *** TextEdit *)

(** Reading and assigning the inherited member [m_text]. *)
Definition TextEdit_m_text (this : loc) : Exec string :=
  o ← load this;
  match o with
  | WindowsTextEdit m_text | MacOSTextEdit m_text => mret m_text
  | _ => undefined
  end.

Definition TextEdit_set_m_text (this : loc) (text : string) : Exec unit :=
  o ← load this;
  match o with
  | WindowsTextEdit _ => store this (WindowsTextEdit text)
  | MacOSTextEdit _ => store this (MacOSTextEdit text)
  | _ => undefined
  end.

Definition WindowsTextEdit_getText (this : loc) : Exec string :=
  TextEdit_m_text this.

Definition WindowsTextEdit_setText (this : loc) (text : string) : Exec unit :=
  TextEdit_set_m_text this text;;
  m_text ← TextEdit_m_text this;
  print ("Windows TextEdit text set to " +:+ "'" +:+ m_text +:+ "'" +:+ endl).

Definition MacOSTextEdit_getText (this : loc) : Exec string :=
  TextEdit_m_text this.

Definition MacOSTextEdit_setText (this : loc) (text : string) : Exec unit :=
  TextEdit_set_m_text this text;;
  m_text ← TextEdit_m_text this;
  print ("MacOS TextEdit text set to " +:+ "'" +:+ m_text +:+ "'" +:+ endl).

(** [textEdit->getText()] and [textEdit->setText(text)] through a
    [TextEdit *]. *)
Definition TextEdit_getText (this : loc) : Exec string :=
  o ← load this;
  match o with
  | WindowsTextEdit _ => WindowsTextEdit_getText this
  | MacOSTextEdit _ => MacOSTextEdit_getText this
  | _ => undefined
  end.

Definition TextEdit_setText (this : loc) (text : string) : Exec unit :=
  o ← load this;
  match o with
  | WindowsTextEdit _ => WindowsTextEdit_setText this text
  | MacOSTextEdit _ => MacOSTextEdit_setText this text
  | _ => undefined
  end.

(** *** WindowApplication, the abstract factory *)

Definition WindowsWindowApplication_createButton (this : loc) : Exec loc :=
  new WindowsButton.

(** [new WindowsTextEdit]: [m_text] is default-constructed, hence empty. *)
Definition WindowsWindowApplication_createTextEdit (this : loc) : Exec loc :=
  new (WindowsTextEdit "").

Definition MacOSWindowApplication_createButton (this : loc) : Exec loc :=
  new MacOSButton.

Definition MacOSWindowApplication_createTextEdit (this : loc) : Exec loc :=
  new (MacOSTextEdit "").

Definition WindowApplication_createButton (this : loc) : Exec loc :=
  o ← load this;
  match o with
  | WindowsWindowApplication => WindowsWindowApplication_createButton this
  | MacOSWindowApplication => MacOSWindowApplication_createButton this
  | _ => undefined
  end.

Definition WindowApplication_createTextEdit (this : loc) : Exec loc :=
  o ← load this;
  match o with
  | WindowsWindowApplication => WindowsWindowApplication_createTextEdit this
  | MacOSWindowApplication => MacOSWindowApplication_createTextEdit this
  | _ => undefined
  end.

(** *** Platform selection *)

Module OS.
Inductive t := Windows | MacOS | None.
End OS.

Definition client_code (application : loc) : Exec unit :=
  button ← WindowApplication_createButton application;
  textEdit ← WindowApplication_createTextEdit application;
  Button_buttonClick button;;
  TextEdit_setText textEdit "Hello OS";;
  text ← TextEdit_getText textEdit;
  print ("Text edit have text -> " +:+ text +:+ endl);;
  free button;;
  free textEdit.

(** The preprocessor evaluates the operand of [#if] in its widest integer
    type, 64 bits wide: of the number a macro is defined as, only the low
    64 bits are tested, so a multiple of 2^64 counts as 0. *)
Definition cpp_value (v : Z) : Z := v mod 2 ^ 64.

(** The numbers that type holds as they are, signed or unsigned. *)
Definition representable (v : Z) : Prop := - 2 ^ 63 ≤ v < 2 ^ 64.

Section config.
(** The two macros that the preprocessor tests; the file as shipped
    defines them as 1 and 0. *)
Variables PLATFORM_WINDOWS PLATFORM_MACOS : Z.

Definition USED_API : OS.t :=
  if decide (cpp_value PLATFORM_WINDOWS ≠ 0) then OS.Windows
  else if decide (cpp_value PLATFORM_MACOS ≠ 0) then OS.MacOS
  else OS.None.

(** The [switch] either leaves a factory in [app] or returns from
    [main] with a status. *)
Definition main : Exec Z :=
  selected ← match USED_API with
             | OS.Windows => app ← new WindowsWindowApplication; mret (inr app)
             | OS.MacOS => app ← new MacOSWindowApplication; mret (inr app)
             | OS.None => print "None of platforms is chosen!";; mret (inl 1)
             end;
  match selected with
  | inl status => mret status
  | inr app =>
      client_code app;;
      free app;;
      mret 0
  end.
End config.

(** *** The two families, for stating properties of either platform *)

Inductive platform := Windows | MacOS.

Global Instance factory_platform_eq_dec : EqDecision platform.
Proof. solve_decision. Defined.

(** The selector value that picks a family. *)
Definition selector (p : platform) : OS.t :=
  match p with Windows => OS.Windows | MacOS => OS.MacOS end.

Definition application (p : platform) : object :=
  match p with Windows => WindowsWindowApplication | MacOS => MacOSWindowApplication end.

Definition button (p : platform) : object :=
  match p with Windows => WindowsButton | MacOS => MacOSButton end.

Definition text_edit (p : platform) (m_text : string) : object :=
  match p with Windows => WindowsTextEdit m_text | MacOS => MacOSTextEdit m_text end.

(** The family a concrete class belongs to. *)
Definition family (o : object) : option platform :=
  match o with
  | WindowsButton | WindowsTextEdit _ | WindowsWindowApplication => Some Windows
  | MacOSButton | MacOSTextEdit _ | MacOSWindowApplication => Some MacOS
  end.

(** The identifier a family's widgets print. *)
Definition name (p : platform) : string :=
  match p with Windows => "Windows" | MacOS => "MacOS" end.

(** What [client_code] is expected to print for a family. *)
Definition transcript (p : platform) : string :=
  (name p +:+ " button was clicked" +:+ endl) +:+
  (name p +:+ " TextEdit text set to 'Hello OS'" +:+ endl) +:+
  ("Text edit have text -> Hello OS" +:+ endl).

(** [n] calls of [getText] in a row, with the strings they returned. *)
Fixpoint getText_times (n : nat) (this : loc) : Exec (list string) :=
  match n with
  | O => mret []
  | S n' =>
      text ← TextEdit_getText this;
      rest ← getText_times n' this;
      mret (text :: rest)
  end.

(** [n] calls of [buttonClick] in a row. *)
Fixpoint buttonClick_times (n : nat) (this : loc) : Exec unit :=
  match n with
  | O => mret tt
  | S n' => Button_buttonClick this;; buttonClick_times n' this
  end.

(** The line a button prints, [n] times over. *)
Fixpoint click_lines (p : platform) (n : nat) : string :=
  match n with
  | O => ""
  | S n' => (name p +:+ " button was clicked" +:+ endl) +:+ click_lines p n'
  end.

(** *** The abstract capability set *)

(** What a client can do with a factory and its products without knowing
    any class: the virtual methods of the three interfaces, [delete]
    through the interfaces' virtual destructors, and writing to standard
    output.  The pointers are of abstract types [F], [B], [T] and the
    effects of an abstract [M]: a client written against this record has
    nothing to look into. *)
Record capabilities (M : Type → Type) (F B T : Type) := Capabilities {
  createButton : F → M B;
  createTextEdit : F → M T;
  buttonClick : B → M unit;
  setText : T → string → M unit;
  getText : T → M string;
  delete_button : B → M unit;
  delete_textEdit : T → M unit;
  put : string → M unit
}.

Arguments createButton {M F B T}.
Arguments createTextEdit {M F B T}.
Arguments buttonClick {M F B T}.
Arguments setText {M F B T}.
Arguments getText {M F B T}.
Arguments delete_button {M F B T}.
Arguments delete_textEdit {M F B T}.
Arguments put {M F B T}.

(** The statements of [client_code], written against the capability set
    alone. *)
Definition abstract_client {M : Type → Type} `{MRet M, MBind M} {F B T : Type}
    (ops : capabilities M F B T) (application : F) : M unit :=
  button ← createButton ops application;
  textEdit ← createTextEdit ops application;
  buttonClick ops button;;
  setText ops textEdit "Hello OS";;
  text ← getText ops textEdit;
  put ops ("Text edit have text -> " +:+ text +:+ endl);;
  delete_button ops button;;
  delete_textEdit ops textEdit.

(** The capability set as the program provides it: every call is a virtual
    call through a pointer to the interface. *)
Definition virtual_capabilities : capabilities Exec loc loc loc := {|
  createButton := WindowApplication_createButton;
  createTextEdit := WindowApplication_createTextEdit;
  buttonClick := Button_buttonClick;
  setText := TextEdit_setText;
  getText := TextEdit_getText;
  delete_button := free;
  delete_textEdit := free;
  put := print
|}.

(** The capability set as one family implements it: the methods of that
    family's own classes. *)
Definition class_capabilities (p : platform) : capabilities Exec loc loc loc :=
  match p with
  | Windows => {|
      createButton := WindowsWindowApplication_createButton;
      createTextEdit := WindowsWindowApplication_createTextEdit;
      buttonClick := WindowsButton_buttonClick;
      setText := WindowsTextEdit_setText;
      getText := WindowsTextEdit_getText;
      delete_button := free;
      delete_textEdit := free;
      put := print |}
  | MacOS => {|
      createButton := MacOSWindowApplication_createButton;
      createTextEdit := MacOSWindowApplication_createTextEdit;
      buttonClick := MacOSButton_buttonClick;
      setText := MacOSTextEdit_setText;
      getText := MacOSTextEdit_getText;
      delete_button := free;
      delete_textEdit := free;
      put := print |}
  end.

End AbstractFactory.

(** ** builder/main.cpp *)

Module Builder.

(** The classes of the program.  A pointer member is [None] until a first
    assignment gives it a value: [new WindowCreationManager] leaves
    [m_builder] indeterminate, and a builder's [window] is indeterminate
    until its constructor has called [reset]. *)
Inductive object :=
| MacOSWindow (structure : string)
| WindowsWindow (structure : string)
| MacOSWindowBuilder (window : option loc)
| WindowsWindowBuilder (window : option loc)
| WindowCreationManager (m_builder : option loc).

Abbreviation Exec := (Exec object).

(** Using the value of a pointer member. *)
Definition pointer (p : option loc) : Exec loc :=
  match p with
  | Some l => mret l
  | None => undefined
  end.

(** *** The two products *)

Definition MacOSWindow_printStructure (this : loc) : Exec unit :=
  o ← load this;
  match o with
  | MacOSWindow structure => print (structure +:+ endl)
  | _ => undefined
  end.

Definition WindowsWindow_printStructure (this : loc) : Exec unit :=
  o ← load this;
  match o with
  | WindowsWindow structure => print (structure +:+ endl)
  | _ => undefined
  end.

(** [this->structure += fragment]. *)
Definition MacOSWindow_structure_append (this : loc) (fragment : string) : Exec unit :=
  o ← load this;
  match o with
  | MacOSWindow structure => store this (MacOSWindow (structure +:+ fragment))
  | _ => undefined
  end.

Definition WindowsWindow_structure_append (this : loc) (fragment : string) : Exec unit :=
  o ← load this;
  match o with
  | WindowsWindow structure => store this (WindowsWindow (structure +:+ fragment))
  | _ => undefined
  end.

(** [delete window] through a pointer of the product's own class. *)
Definition MacOSWindow_delete (this : loc) : Exec unit :=
  o ← load this;
  match o with
  | MacOSWindow _ => free this
  | _ => undefined
  end.

Definition WindowsWindow_delete (this : loc) : Exec unit :=
  o ← load this;
  match o with
  | WindowsWindow _ => free this
  | _ => undefined
  end.

(** *** MacOSWindowBuilder *)

Definition MacOSWindowBuilder_window (this : loc) : Exec loc :=
  o ← load this;
  match o with
  | MacOSWindowBuilder window => pointer window
  | _ => undefined
  end.

Definition MacOSWindowBuilder_reset (this : loc) : Exec unit :=
  fresh_window ← new (MacOSWindow "");
  o ← load this;
  match o with
  | MacOSWindowBuilder _ => store this (MacOSWindowBuilder (Some fresh_window))
  | _ => undefined
  end.

(** [new MacOSWindowBuilder]: the constructor calls [reset]. *)
Definition MacOSWindowBuilder_new : Exec loc :=
  this ← new (MacOSWindowBuilder None);
  MacOSWindowBuilder_reset this;;
  mret this.

(** [delete builder]: the destructor deletes [window]. *)
Definition MacOSWindowBuilder_delete (this : loc) : Exec unit :=
  window ← MacOSWindowBuilder_window this;
  MacOSWindow_delete window;;
  free this.

Definition MacOSWindowBuilder_createNativeWindow (this : loc) : Exec unit :=
  window ← MacOSWindowBuilder_window this;
  MacOSWindow_structure_append window "Window: Standard MacOS; ".

Definition MacOSWindowBuilder_addMenubar (this : loc) : Exec unit :=
  window ← MacOSWindowBuilder_window this;
  MacOSWindow_structure_append window "Menubar: MacOS default; ".

Definition MacOSWindowBuilder_setTitle (this : loc) (title : string) : Exec unit :=
  window ← MacOSWindowBuilder_window this;
  MacOSWindow_structure_append window ("Window title: " +:+ title +:+ ";").

Definition MacOSWindowBuilder_setDefaultBackgroundColor (this : loc) : Exec unit :=
  window ← MacOSWindowBuilder_window this;
  MacOSWindow_structure_append window "Background color: MacOS default; ".

Definition MacOSWindowBuilder_getWindow (this : loc) : Exec loc :=
  MacOSWindowBuilder_window this.

(** *** WindowsWindowBuilder *)

Definition WindowsWindowBuilder_window (this : loc) : Exec loc :=
  o ← load this;
  match o with
  | WindowsWindowBuilder window => pointer window
  | _ => undefined
  end.

Definition WindowsWindowBuilder_reset (this : loc) : Exec unit :=
  fresh_window ← new (WindowsWindow "");
  o ← load this;
  match o with
  | WindowsWindowBuilder _ => store this (WindowsWindowBuilder (Some fresh_window))
  | _ => undefined
  end.

Definition WindowsWindowBuilder_new : Exec loc :=
  this ← new (WindowsWindowBuilder None);
  WindowsWindowBuilder_reset this;;
  mret this.

Definition WindowsWindowBuilder_delete (this : loc) : Exec unit :=
  window ← WindowsWindowBuilder_window this;
  WindowsWindow_delete window;;
  free this.

Definition WindowsWindowBuilder_createNativeWindow (this : loc) : Exec unit :=
  window ← WindowsWindowBuilder_window this;
  WindowsWindow_structure_append window "Window: Standard Windows; ".

Definition WindowsWindowBuilder_addMenubar (this : loc) : Exec unit :=
  window ← WindowsWindowBuilder_window this;
  WindowsWindow_structure_append window "Menubar: Windows default; ".

Definition WindowsWindowBuilder_setTitle (this : loc) (title : string) : Exec unit :=
  window ← WindowsWindowBuilder_window this;
  WindowsWindow_structure_append window ("Window title: " +:+ title +:+ ";").

Definition WindowsWindowBuilder_setDefaultBackgroundColor (this : loc) : Exec unit :=
  window ← WindowsWindowBuilder_window this;
  WindowsWindow_structure_append window "Background color: Windows default; ".

Definition WindowsWindowBuilder_getWindow (this : loc) : Exec loc :=
  WindowsWindowBuilder_window this.

(** *** WindowBuilder: the four virtual steps through a [WindowBuilder *] *)

Definition WindowBuilder_createNativeWindow (this : loc) : Exec unit :=
  o ← load this;
  match o with
  | MacOSWindowBuilder _ => MacOSWindowBuilder_createNativeWindow this
  | WindowsWindowBuilder _ => WindowsWindowBuilder_createNativeWindow this
  | _ => undefined
  end.

Definition WindowBuilder_addMenubar (this : loc) : Exec unit :=
  o ← load this;
  match o with
  | MacOSWindowBuilder _ => MacOSWindowBuilder_addMenubar this
  | WindowsWindowBuilder _ => WindowsWindowBuilder_addMenubar this
  | _ => undefined
  end.

Definition WindowBuilder_setTitle (this : loc) (title : string) : Exec unit :=
  o ← load this;
  match o with
  | MacOSWindowBuilder _ => MacOSWindowBuilder_setTitle this title
  | WindowsWindowBuilder _ => WindowsWindowBuilder_setTitle this title
  | _ => undefined
  end.

Definition WindowBuilder_setDefaultBackgroundColor (this : loc) : Exec unit :=
  o ← load this;
  match o with
  | MacOSWindowBuilder _ => MacOSWindowBuilder_setDefaultBackgroundColor this
  | WindowsWindowBuilder _ => WindowsWindowBuilder_setDefaultBackgroundColor this
  | _ => undefined
  end.

(** *** WindowCreationManager, the director *)

Definition WindowCreationManager_m_builder (this : loc) : Exec loc :=
  o ← load this;
  match o with
  | WindowCreationManager m_builder => pointer m_builder
  | _ => undefined
  end.

Definition WindowCreationManager_setBuilder (this builder : loc) : Exec unit :=
  o ← load this;
  match o with
  | WindowCreationManager _ => store this (WindowCreationManager (Some builder))
  | _ => undefined
  end.

Definition WindowCreationManager_createDefaultWindow (this : loc) : Exec unit :=
  (m_builder ← WindowCreationManager_m_builder this;
   WindowBuilder_createNativeWindow m_builder);;
  (m_builder ← WindowCreationManager_m_builder this;
   WindowBuilder_addMenubar m_builder);;
  (m_builder ← WindowCreationManager_m_builder this;
   WindowBuilder_setTitle m_builder "New Window");;
  (m_builder ← WindowCreationManager_m_builder this;
   WindowBuilder_setDefaultBackgroundColor m_builder).

Definition WindowCreationManager_createWindowWithTitle (this : loc) (title : string) : Exec unit :=
  (m_builder ← WindowCreationManager_m_builder this;
   WindowBuilder_createNativeWindow m_builder);;
  (m_builder ← WindowCreationManager_m_builder this;
   WindowBuilder_addMenubar m_builder);;
  (m_builder ← WindowCreationManager_m_builder this;
   WindowBuilder_setTitle m_builder title);;
  (m_builder ← WindowCreationManager_m_builder this;
   WindowBuilder_setDefaultBackgroundColor m_builder).

(** *** The client and [main] *)

Definition client_code (manager : loc) : Exec unit :=
  (builder ← WindowsWindowBuilder_new;
   WindowCreationManager_setBuilder manager builder;;
   WindowCreationManager_createDefaultWindow manager;;
   window ← WindowsWindowBuilder_getWindow builder;
   WindowsWindow_printStructure window;;
   WindowsWindow_delete window;;
   WindowsWindowBuilder_reset builder;;
   WindowCreationManager_createWindowWithTitle manager "New title";;
   window ← WindowsWindowBuilder_getWindow builder;
   WindowsWindow_printStructure window;;
   WindowsWindowBuilder_delete builder);;
  (builder ← MacOSWindowBuilder_new;
   WindowCreationManager_setBuilder manager builder;;
   WindowCreationManager_createDefaultWindow manager;;
   window ← MacOSWindowBuilder_getWindow builder;
   MacOSWindow_printStructure window;;
   MacOSWindow_delete window;;
   MacOSWindowBuilder_reset builder;;
   WindowCreationManager_createWindowWithTitle manager "New title";;
   window ← MacOSWindowBuilder_getWindow builder;
   MacOSWindow_printStructure window;;
   MacOSWindowBuilder_delete builder).

Definition main : Exec Z :=
  manager ← new (WindowCreationManager None);
  client_code manager;;
  free manager;;
  mret 0.

(** *** The two families, for stating properties of either platform *)

Inductive platform := Windows | MacOS.

Global Instance builder_platform_eq_dec : EqDecision platform.
Proof. solve_decision. Defined.

Definition window (p : platform) (structure : string) : object :=
  match p with Windows => WindowsWindow structure | MacOS => MacOSWindow structure end.

Definition builder (p : platform) (window : option loc) : object :=
  match p with
  | Windows => WindowsWindowBuilder window
  | MacOS => MacOSWindowBuilder window
  end.

(** The family a concrete class belongs to; the director belongs to none. *)
Definition family (o : object) : option platform :=
  match o with
  | WindowsWindow _ | WindowsWindowBuilder _ => Some Windows
  | MacOSWindow _ | MacOSWindowBuilder _ => Some MacOS
  | WindowCreationManager _ => None
  end.

(** What the interface does not declare, [reset], [getWindow] and the
    product's [printStructure], is called through a pointer of the
    concrete class; [p] is that static class. *)
Definition reset (p : platform) : loc → Exec unit :=
  match p with Windows => WindowsWindowBuilder_reset | MacOS => MacOSWindowBuilder_reset end.

Definition getWindow (p : platform) : loc → Exec loc :=
  match p with Windows => WindowsWindowBuilder_getWindow | MacOS => MacOSWindowBuilder_getWindow end.

Definition printStructure (p : platform) : loc → Exec unit :=
  match p with Windows => WindowsWindow_printStructure | MacOS => MacOSWindow_printStructure end.

(** The four steps of the [WindowBuilder] interface, and a call of one of
    them through a [WindowBuilder *]. *)
Inductive step :=
| createNativeWindow
| addMenubar
| setTitle (title : string)
| setDefaultBackgroundColor.

Definition call (st : step) (this : loc) : Exec unit :=
  match st with
  | createNativeWindow => WindowBuilder_createNativeWindow this
  | addMenubar => WindowBuilder_addMenubar this
  | setTitle title => WindowBuilder_setTitle this title
  | setDefaultBackgroundColor => WindowBuilder_setDefaultBackgroundColor this
  end.

(** A recipe of the director: the steps of a list, in order, each on the
    builder that [m_builder] points to. *)
Fixpoint perform (manager : loc) (steps : list step) : Exec unit :=
  match steps with
  | [] => mret tt
  | st :: rest =>
      (m_builder ← WindowCreationManager_m_builder manager; call st m_builder);;
      perform manager rest
  end.

Definition name (p : platform) : string :=
  match p with Windows => "Windows" | MacOS => "MacOS" end.

(** The fragment a step is expected to append for a platform. *)
Definition fragment (p : platform) (st : step) : string :=
  match st with
  | createNativeWindow => "Window: Standard " +:+ name p +:+ "; "
  | addMenubar => "Menubar: " +:+ name p +:+ " default; "
  | setTitle title => "Window title: " +:+ title +:+ ";"
  | setDefaultBackgroundColor => "Background color: " +:+ name p +:+ " default; "
  end.

Definition fragments (p : platform) (steps : list step) : string :=
  foldr (λ st rest, fragment p st +:+ rest) "" steps.

(** The constructor and the two [delete] expressions of [client_code],
    again through a pointer of the concrete class. *)
Definition new_builder (p : platform) : Exec loc :=
  match p with Windows => WindowsWindowBuilder_new | MacOS => MacOSWindowBuilder_new end.

Definition delete_window (p : platform) : loc → Exec unit :=
  match p with Windows => WindowsWindow_delete | MacOS => MacOSWindow_delete end.

Definition delete_builder (p : platform) : loc → Exec unit :=
  match p with Windows => WindowsWindowBuilder_delete | MacOS => MacOSWindowBuilder_delete end.

(** One of the two blocks of [client_code], for the platform it is
    written for. *)
Definition session (p : platform) (manager : loc) : Exec unit :=
  builder ← new_builder p;
  WindowCreationManager_setBuilder manager builder;;
  WindowCreationManager_createDefaultWindow manager;;
  window ← getWindow p builder;
  printStructure p window;;
  delete_window p window;;
  reset p builder;;
  WindowCreationManager_createWindowWithTitle manager "New title";;
  window ← getWindow p builder;
  printStructure p window;;
  delete_builder p builder.

(** The description a complete recipe yields on an empty product. *)
Definition description (p : platform) (title : string) : string :=
  fragment p createNativeWindow +:+ fragment p addMenubar +:+
  fragment p (setTitle title) +:+ fragment p setDefaultBackgroundColor.

End Builder.


(** ** Running the machine *)

Section machine_facts.
Context {object : Type}.
Implicit Types (s : state object) (l : loc) (o : object).

Lemma bind_run {A B} (m : Exec object A) (f : A → Exec object B) s a s1 :
  m s = Some (a, s1) → (m ≫= f) s = f a s1.
Proof. intros Hm. unfold mbind, exec_bind, bind. by rewrite Hm. Qed.

Lemma bind_undefined {A B} (m : Exec object A) (f : A → Exec object B) s :
  m s = None → (m ≫= f) s = None.
Proof. intros Hm. unfold mbind, exec_bind, bind. by rewrite Hm. Qed.

Lemma bind_ext {A B} (m : Exec object A) (f g : A → Exec object B) s :
  (∀ a s', f a s' = g a s') → (m ≫= f) s = (m ≫= g) s.
Proof.
  intros Hfg. unfold mbind, exec_bind, bind.
  destruct (m s) as [[a s']|]; [apply Hfg|reflexivity].
Qed.

Lemma bind_ret_tt (m : Exec object unit) s : (m;; mret tt) s = m s.
Proof.
  unfold mbind, exec_bind, bind.
  by destruct (m s) as [[[] s']|].
Qed.

Lemma ret_run {A} (a : A) s : (mret a : Exec object A) s = Some (a, s).
Proof. reflexivity. Qed.

Lemma new_run o s :
  ∃ l, heap s !! l = None ∧
       new o s = Some (l, State (<[l := o]> (heap s)) (news s ++ [o]) (cout s)).
Proof.
  exists (fresh (dom (heap s))). split; [|reflexivity].
  apply not_elem_of_dom, is_fresh.
Qed.

Lemma load_run l o s : heap s !! l = Some o → load l s = Some (o, s).
Proof. intros Hl. unfold load. by rewrite Hl. Qed.

Lemma load_dangling l s : heap s !! l = None → load l s = None.
Proof. intros Hl. unfold load. by rewrite Hl. Qed.

Lemma store_run l o o' s :
  heap s !! l = Some o →
  store l o' s = Some (tt, State (<[l := o']> (heap s)) (news s) (cout s)).
Proof. intros Hl. unfold store. by rewrite Hl. Qed.

Lemma free_run l o s :
  heap s !! l = Some o →
  free l s = Some (tt, State (delete l (heap s)) (news s) (cout s)).
Proof. intros Hl. unfold free. by rewrite Hl. Qed.

Lemma print_run str s :
  print str s = Some (tt, State (heap s) (news s) (cout s +:+ str)).
Proof. reflexivity. Qed.

(** Two pointers to objects of different classes are different pointers. *)
Lemma distinct_objects (h : gmap loc object) l1 l2 o1 o2 :
  h !! l1 = Some o1 → h !! l2 = Some o2 → o1 ≠ o2 → l1 ≠ l2.
Proof. intros H1 H2 Hne ->. congruence. Qed.

(** A location that is not live differs from every live one. *)
Lemma fresh_live (h : gmap loc object) l1 l2 o :
  h !! l1 = None → h !! l2 = Some o → l1 ≠ l2.
Proof. intros H1 H2 ->. congruence. Qed.

(** Allocating and then releasing leaves the heap as it was. *)
Lemma delete_fresh_insert (h : gmap loc object) l o :
  h !! l = None → delete l (<[l := o]> h) = h.
Proof. intros Hl. rewrite delete_insert_eq. by apply delete_id. Qed.
End machine_facts.

(** Output is accumulated by appending; appending is associative. *)
Lemma append_assoc (a b c : string) : (a +:+ b) +:+ c = a +:+ (b +:+ c).
Proof.
  induction a as [|ch a IH]; [reflexivity|].
  change (String ch ((a +:+ b) +:+ c) = String ch (a +:+ (b +:+ c))).
  by rewrite IH.
Qed.

Lemma append_empty_r (a : string) : a +:+ "" = a.
Proof.
  induction a as [|ch a IH]; [reflexivity|].
  change (String ch (a +:+ "") = String ch a). by rewrite IH.
Qed.

(** Chaining a command whose run is known. *)
Ltac run_with H := rewrite (bind_run _ _ _ _ _ H); cbn beta iota.

Lemma append_length (a b : string) :
  String.length (a +:+ b) = (String.length a + String.length b)%nat.
Proof.
  induction a as [|ch a IH]; [reflexivity|].
  change (S (String.length (a +:+ b)) = S (String.length a + String.length b)).
  by rewrite IH.
Qed.

(** Appending the same text to two strings keeps them apart. *)
Lemma append_inj_l (c a b : string) : a +:+ c = b +:+ c → a = b.
Proof.
  revert b. induction a as [|x a IH]; intros [|y b] Heq; [done| | |].
  - change (c = String y (b +:+ c)) in Heq.
    apply (f_equal String.length) in Heq.
    cbn [String.length] in Heq. rewrite append_length in Heq. lia.
  - change (String x (a +:+ c) = c) in Heq.
    apply (f_equal String.length) in Heq.
    cbn [String.length] in Heq. rewrite append_length in Heq. lia.
  - change (String x (a +:+ c) = String y (b +:+ c)) in Heq.
    injection Heq as -> Heq. f_equal. by apply IH.
Qed.

(** Two heaps are equal when they agree at every location. *)
Ltac heap_eq :=
  apply map_eq; intros ?;
  repeat first [rewrite lookup_insert | rewrite lookup_delete];
  repeat case_decide; simplify_eq; try done; congruence.

(** A pointer is live: its lookup goes through the updates at other
    locations down to the one that wrote it. *)
Ltac live :=
  cbn [heap];
  repeat first
    [ rewrite lookup_insert_ne by first [done | by apply not_eq_sym]
    | rewrite lookup_delete_ne by first [done | by apply not_eq_sym] ];
  first [apply lookup_insert_eq | done].

(** ** Properties of the Abstract Factory demo *)

Module FactoryFacts.
Import AbstractFactory.

Implicit Types (s : state object) (p : platform) (this app : loc).

(** *** The products *)

Lemma buttonClick_run p this s :
  heap s !! this = Some (button p) →
  Button_buttonClick this s =
    Some (tt, State (heap s) (news s)
                    (cout s +:+ (name p +:+ " button was clicked" +:+ endl))).
Proof.
  intros Hthis. unfold Button_buttonClick.
  run_with (load_run _ _ _ Hthis). by destruct p.
Qed.

Lemma m_text_run p this text s :
  heap s !! this = Some (text_edit p text) →
  TextEdit_m_text this s = Some (text, s).
Proof.
  intros Hthis. unfold TextEdit_m_text.
  run_with (load_run _ _ _ Hthis). by destruct p.
Qed.

Lemma set_m_text_run p this old text s :
  heap s !! this = Some (text_edit p old) →
  TextEdit_set_m_text this text s =
    Some (tt, State (<[this := text_edit p text]> (heap s)) (news s) (cout s)).
Proof.
  intros Hthis. unfold TextEdit_set_m_text.
  run_with (load_run _ _ _ Hthis).
  destruct p; cbn [text_edit]; by erewrite store_run.
Qed.

Lemma getText_run p this text s :
  heap s !! this = Some (text_edit p text) →
  TextEdit_getText this s = Some (text, s).
Proof.
  intros Hthis. unfold TextEdit_getText.
  run_with (load_run _ _ _ Hthis).
  destruct p; cbn [text_edit];
    unfold WindowsTextEdit_getText, MacOSTextEdit_getText;
    by eapply m_text_run.
Qed.

Lemma setText_run p this old text s :
  heap s !! this = Some (text_edit p old) →
  TextEdit_setText this text s =
    Some (tt, State (<[this := text_edit p text]> (heap s)) (news s)
                    (cout s +:+ (name p +:+ " TextEdit text set to '" +:+ text
                                 +:+ "'" +:+ endl))).
Proof.
  intros Hthis. unfold TextEdit_setText.
  run_with (load_run _ _ _ Hthis).
  assert (Hnew : heap (State (<[this := text_edit p text]> (heap s)) (news s) (cout s))
                   !! this = Some (text_edit p text))
    by apply lookup_insert_eq.
  destruct p; cbn [text_edit] in *;
    unfold WindowsTextEdit_setText, MacOSTextEdit_setText.
  - run_with (set_m_text_run Windows _ _ text _ Hthis).
    by run_with (m_text_run Windows _ _ _ Hnew).
  - run_with (set_m_text_run MacOS _ _ text _ Hthis).
    by run_with (m_text_run MacOS _ _ _ Hnew).
Qed.

(** *** The factories *)

Lemma createButton_run p app s :
  heap s !! app = Some (application p) →
  ∃ l, heap s !! l = None ∧
       WindowApplication_createButton app s =
         Some (l, State (<[l := button p]> (heap s)) (news s ++ [button p]) (cout s)).
Proof.
  intros Happ. unfold WindowApplication_createButton.
  run_with (load_run _ _ _ Happ). destruct p; apply new_run.
Qed.

Lemma createTextEdit_run p app s :
  heap s !! app = Some (application p) →
  ∃ l, heap s !! l = None ∧
       WindowApplication_createTextEdit app s =
         Some (l, State (<[l := text_edit p ""]> (heap s))
                        (news s ++ [text_edit p ""]) (cout s)).
Proof.
  intros Happ. unfold WindowApplication_createTextEdit.
  run_with (load_run _ _ _ Happ). destruct p; apply new_run.
Qed.

(** *** The client *)

Lemma client_code_run p app s :
  heap s !! app = Some (application p) →
  client_code app s =
    Some (tt, State (heap s) (news s ++ [button p; text_edit p ""])
                    (cout s +:+ transcript p)).
Proof.
  intros Happ. unfold client_code.
  destruct (createButton_run p app s Happ) as (b & Hb & Hrun). run_with Hrun.
  clear Hrun.
  set (s1 := State (<[b := button p]> (heap s)) _ _).
  assert (Happ1 : heap s1 !! app = Some (application p)).
  { cbn. rewrite lookup_insert_ne; [done|]. by eapply fresh_live. }
  destruct (createTextEdit_run p app s1 Happ1) as (e & He & Hrun). run_with Hrun.
  clear Hrun. cbn [heap news cout s1] in *.
  apply lookup_insert_None in He as [He Hbe].
  set (h2 := <[e := text_edit p ""]> (<[b := button p]> (heap s))).
  assert (Hbutton : h2 !! b = Some (button p)).
  { unfold h2. rewrite lookup_insert_ne; [|done]. apply lookup_insert_eq. }
  assert (Hedit : h2 !! e = Some (text_edit p "")) by apply lookup_insert_eq.
  erewrite bind_run; [|by eapply buttonClick_run]. cbn [heap news cout].
  erewrite bind_run; [|by eapply setText_run]. cbn [heap news cout].
  erewrite bind_run; [|eapply getText_run; cbn; apply lookup_insert_eq].
  erewrite bind_run; [|apply print_run]. cbn [heap news cout].
  erewrite bind_run; [|eapply free_run; cbn; by rewrite lookup_insert_ne]. cbn [heap news cout].
  erewrite free_run;
    [|cbn; rewrite lookup_delete_ne; [apply lookup_insert_eq|done]].
  cbn [heap news cout]. do 3 f_equal.
  - unfold h2. rewrite insert_insert_eq, delete_insert_ne, delete_insert_eq by done.
    by rewrite delete_insert_eq, (delete_id _ b), (delete_id _ e).
  - by rewrite <-app_assoc.
  - unfold transcript. rewrite !append_assoc. by destruct p.
Qed.

(** A call of [client_code] that completes has constructed two objects;
    with anything but a factory behind [application] it does not complete. *)
Lemma client_code_creates app s1 s2 :
  client_code app s1 = Some (tt, s2) →
  length (news s2) = (length (news s1) + 2)%nat.
Proof.
  destruct (heap s1 !! app) as [o|] eqn:Happ.
  - assert (Hcases : (∃ p, o = application p) ∨
                     WindowApplication_createButton app s1 = None).
    { unfold WindowApplication_createButton.
      rewrite (bind_run _ _ _ _ _ (load_run _ _ _ Happ)).
      destruct o; first [by right | left; by exists Windows | left; by exists MacOS]. }
    destruct Hcases as [[p ->]|Hfail].
    + rewrite (client_code_run p app s1 Happ). intros [= <-].
      cbn. by rewrite length_app.
    + unfold client_code. by rewrite (bind_undefined _ _ _ Hfail).
  - unfold client_code, WindowApplication_createButton.
    rewrite (bind_undefined (load app ≫= _)); [done|].
    apply bind_undefined. by apply load_dangling.
Qed.

(** *** [main] *)

Lemma factory_main_run pw pm p s :
  USED_API pw pm = selector p →
  main pw pm s =
    Some (0, State (heap s) (news s ++ [application p; button p; text_edit p ""])
                   (cout s +:+ transcript p)).
Proof.
  intros Hsel. unfold main. rewrite Hsel.
  destruct (new_run (application p) s) as (a & Ha & Hnew).
  assert (Hswitch :
    match selector p with
    | OS.Windows => app ← new WindowsWindowApplication; mret (inr app)
    | OS.MacOS => app ← new MacOSWindowApplication; mret (inr app)
    | OS.None => print "None of platforms is chosen!";; mret (inl 1)
    end s = Some (inr a : Z + loc,
                  State (<[a := application p]> (heap s))
                        (news s ++ [application p]) (cout s))).
  { destruct p; cbn [selector application] in *; by run_with Hnew. }
  run_with Hswitch.
  erewrite bind_run; [|eapply client_code_run; cbn; apply lookup_insert_eq].
  cbn [heap news cout].
  erewrite bind_run; [|eapply free_run; cbn; apply lookup_insert_eq].
  cbn [heap news cout]. rewrite ret_run. do 3 f_equal.
  - by apply delete_fresh_insert.
  - by rewrite <-app_assoc.
Qed.

(** C1. With the selector set to Windows, respectively MacOS, [main]
    creates the factory of that family, [client_code] creates the button
    and the text edit of that family, the three lines printed carry the
    family's name, every object has been deleted again, and [main]
    returns 0. *)
Theorem main_supported_platform pw pm p s :
  USED_API pw pm = selector p →
  main pw pm s =
    Some (0, State (heap s)
                   (news s ++ [application p; button p; text_edit p ""])
                   (cout s +:+
                      (name p +:+ " button was clicked" +:+ endl) +:+
                      (name p +:+ " TextEdit text set to 'Hello OS'" +:+ endl) +:+
                      ("Text edit have text -> Hello OS" +:+ endl))).
Proof. intros Hsel. by rewrite (factory_main_run pw pm p s Hsel). Qed.

Lemma main_supported_platform_witness :
  main 1 0 init =
    Some (0, State ∅ [WindowsWindowApplication; WindowsButton; WindowsTextEdit ""]
                   ("Windows button was clicked" +:+ endl +:+
                    "Windows TextEdit text set to 'Hello OS'" +:+ endl +:+
                    "Text edit have text -> Hello OS" +:+ endl)) ∧
  main 0 1 init =
    Some (0, State ∅ [MacOSWindowApplication; MacOSButton; MacOSTextEdit ""]
                   ("MacOS button was clicked" +:+ endl +:+
                    "MacOS TextEdit text set to 'Hello OS'" +:+ endl +:+
                    "Text edit have text -> Hello OS" +:+ endl)).
Proof.
  split.
  - apply (main_supported_platform 1 0 Windows init). reflexivity.
  - apply (main_supported_platform 0 1 MacOS init). reflexivity.
Defined.

(** C2. With the selector resolving to [None], [main] prints the
    diagnostic and returns 1 at once: the heap and the log of constructed
    objects are as before, so no product was created; and since a
    completed call of [client_code] always constructs two objects, no such
    call took place. *)
Theorem main_no_platform pw pm s :
  USED_API pw pm = OS.None →
  main pw pm s =
    Some (1, State (heap s) (news s) (cout s +:+ "None of platforms is chosen!")) ∧
  (∀ app s1 s2, client_code app s1 = Some (tt, s2) →
                length (news s2) = (length (news s1) + 2)%nat).
Proof.
  intros Hsel. split; [|apply client_code_creates].
  unfold main. by rewrite Hsel.
Qed.

Lemma main_no_platform_witness :
  main 0 0 init = Some (1, State ∅ [] "None of platforms is chosen!").
Proof. apply (main_no_platform 0 0 init). reflexivity. Defined.

(** *** TextEdit *)

(** C7. Any number of [getText] calls in a row on a text edit of either
    platform all return the stored text, and leave the whole state, the
    text edit included, as it was. *)
Theorem getText_repeatable p this text s n :
  heap s !! this = Some (text_edit p text) →
  getText_times n this s = Some (replicate n text, s).
Proof.
  intros Hthis. induction n as [|n IH]; [reflexivity|].
  cbn [getText_times replicate].
  run_with (getText_run p this text s Hthis).
  by run_with IH.
Qed.

Lemma getText_repeatable_witness :
  getText_times 3 1%positive (State {[1%positive := MacOSTextEdit "abc"]} [] "")
  = Some (["abc"; "abc"; "abc"], State {[1%positive := MacOSTextEdit "abc"]} [] "").
Proof.
  apply (getText_repeatable MacOS 1%positive "abc"
           (State {[1%positive := MacOSTextEdit "abc"]} [] "") 3).
  reflexivity.
Defined.

(** C9. On a text edit of either platform holding any text, [setText(text)]
    followed by [getText()] returns exactly [text]: the object now stores
    [text] as given, and the only other effect is the line [setText]
    prints. *)
Theorem setText_getText p this old text s :
  heap s !! this = Some (text_edit p old) →
  (TextEdit_setText this text;; TextEdit_getText this) s =
    Some (text, State (<[this := text_edit p text]> (heap s)) (news s)
                      (cout s +:+ (name p +:+ " TextEdit text set to '" +:+ text
                                   +:+ "'" +:+ endl))).
Proof.
  intros Hthis.
  run_with (setText_run p this old text s Hthis).
  eapply getText_run. cbn. apply lookup_insert_eq.
Qed.

Lemma setText_getText_witness :
  (TextEdit_setText 1%positive "a 'quoted'  text ";; TextEdit_getText 1%positive)
    (State {[1%positive := WindowsTextEdit "old"]} [] "")
  = Some ("a 'quoted'  text ",
          State (<[1%positive := WindowsTextEdit "a 'quoted'  text "]>
                   {[1%positive := WindowsTextEdit "old"]}) []
                ("Windows TextEdit text set to 'a 'quoted'  text '" +:+ endl)).
Proof.
  exact (setText_getText Windows 1%positive "old" "a 'quoted'  text "
           (State {[1%positive := WindowsTextEdit "old"]} [] "") eq_refl).
Defined.

(** C10. The text edit that [createTextEdit] of either factory returns
    is a new object, and [getText()] on it, before any [setText], returns
    the empty string. *)
Theorem new_text_edit_empty p app s :
  heap s !! app = Some (application p) →
  ∃ textEdit, heap s !! textEdit = None ∧
    (textEdit ← WindowApplication_createTextEdit app; TextEdit_getText textEdit) s =
      Some ("", State (<[textEdit := text_edit p ""]> (heap s))
                      (news s ++ [text_edit p ""]) (cout s)).
Proof.
  intros Happ.
  destruct (createTextEdit_run p app s Happ) as (e & He & Hrun).
  exists e. split; [done|]. run_with Hrun.
  eapply getText_run. cbn. apply lookup_insert_eq.
Qed.

Lemma new_text_edit_empty_witness :
  ∃ textEdit, (State {[1%positive := WindowsWindowApplication]} [] ""
                 : state object).(heap) !! textEdit = None ∧
    (textEdit ← WindowApplication_createTextEdit 1%positive; TextEdit_getText textEdit)
      (State {[1%positive := WindowsWindowApplication]} [] "") =
      Some ("", State (<[textEdit := WindowsTextEdit ""]>
                         {[1%positive := WindowsWindowApplication]})
                      [WindowsTextEdit ""] "").
Proof.
  exact (new_text_edit_empty Windows 1%positive
           (State {[1%positive := WindowsWindowApplication]} [] "") eq_refl).
Defined.

(** *** One family per run *)

(** The client run with the methods of a family's own classes in place
    of the virtual calls. *)
Lemma class_client_run p app s :
  abstract_client (class_capabilities p) app s =
    Some (tt, State (heap s) (news s ++ [button p; text_edit p ""])
                    (cout s +:+ transcript p)).
Proof.
  destruct (new_run (button p) s) as (b & Hb & Hnew1).
  set (s1 := State (<[b := button p]> (heap s)) _ _) in Hnew1.
  destruct (new_run (text_edit p "") s1) as (e & He & Hnew2).
  cbn [heap news cout s1] in *.
  apply lookup_insert_None in He as [He Hbe].
  assert (Hrun :
    (button ← new (button p);
     textEdit ← new (text_edit p "");
     print (name p +:+ " button was clicked" +:+ endl);;
     (TextEdit_set_m_text textEdit "Hello OS";;
      m_text ← TextEdit_m_text textEdit;
      print (name p +:+ " TextEdit text set to " +:+ "'" +:+ m_text +:+ "'" +:+ endl));;
     text ← TextEdit_m_text textEdit;
     print ("Text edit have text -> " +:+ text +:+ endl);;
     free button;;
     free textEdit) s =
    Some (tt, State (heap s) (news s ++ [button p; text_edit p ""])
                    (cout s +:+ transcript p))).
  { run_with Hnew1. run_with Hnew2.
    erewrite bind_run; [|apply print_run]. cbn [heap news cout].
    erewrite bind_run;
      [|(erewrite bind_run; [|eapply (set_m_text_run p e ""); live]);
        cbn [heap news cout];
        (erewrite bind_run; [|eapply (m_text_run p e "Hello OS"); live]);
        apply print_run].
    cbn [heap news cout].
    erewrite bind_run; [|eapply (m_text_run p e "Hello OS"); live].
    erewrite bind_run; [|apply print_run]. cbn [heap news cout].
    erewrite bind_run; [|eapply (free_run b); live]. cbn [heap news cout].
    erewrite (free_run e); [|live].
    cbn [heap news cout]. do 3 f_equal.
    - heap_eq.
    - by rewrite <-app_assoc.
    - unfold transcript. rewrite !append_assoc. by destruct p. }
  by destruct p.
Qed.

(** C8, as amended. A run of the factory demo in which a platform is
    selected has exactly one family active, the one [USED_API] selects when
    the program is compiled.  Its [client_code] never inspects a concrete
    type: it is the client written against the abstract capability set
    alone, given the virtual calls of the interfaces; and handed a factory
    of either family, it does what that same client does with the methods
    of the family's own classes. *)
Theorem factory_run_one_family pw pm p app s :
  USED_API pw pm = selector p →
  heap s !! app = Some (application p) →
  (∃ s', main pw pm init = Some (0, s') ∧
         active_families family s' = [p] ∧ one_family_active family s') ∧
  (∀ application s0,
     client_code application s0 =
       abstract_client virtual_capabilities application s0) ∧
  client_code app s = abstract_client (class_capabilities p) app s.
Proof.
  intros Hsel Happ. split; [|split].
  - eexists. split; [by apply factory_main_run|].
    assert (Hactive : active_families family
              (State (heap (init : state object))
                     (news (init : state object) ++
                        [application p; button p; text_edit p ""])
                     (cout (init : state object) +:+ transcript p)) = [p])
      by by destruct p.
    split; [done|]. by exists p.
  - reflexivity.
  - by rewrite class_client_run, (client_code_run p app s Happ).
Qed.

Lemma factory_run_one_family_witness :
  (∃ s', main 1 0 init = Some (0, s') ∧
         active_families family s' = [Windows] ∧ one_family_active family s') ∧
  (∀ application s0,
     client_code application s0 =
       abstract_client virtual_capabilities application s0) ∧
  client_code 1%positive (State {[1%positive := WindowsWindowApplication]} [] "") =
    abstract_client (class_capabilities Windows) 1%positive
      (State {[1%positive := WindowsWindowApplication]} [] "").
Proof.
  exact (factory_run_one_family 1 0 Windows 1%positive
           (State {[1%positive := WindowsWindowApplication]} [] "")
           eq_refl eq_refl).
Defined.

(** *** More on the products, the factories and [main] *)

(** X11. Two calls of [createTextEdit] on a factory of either family
    return two different new objects, and [setText] on the first does not
    reach the second: the first then reads back the text set, the second is
    still empty. *)
Theorem text_edits_independent p app text s :
  heap s !! app = Some (application p) →
  ∃ first second,
    first ≠ second ∧ heap s !! first = None ∧ heap s !! second = None ∧
    (first ← WindowApplication_createTextEdit app;
     second ← WindowApplication_createTextEdit app;
     TextEdit_setText first text;;
     text1 ← TextEdit_getText first;
     text2 ← TextEdit_getText second;
     mret (first, second, text1, text2)) s =
      Some ((first, second, text, ""),
            State (<[first := text_edit p text]>
                     (<[second := text_edit p ""]> (heap s)))
                  (news s ++ [text_edit p ""; text_edit p ""])
                  (cout s +:+ (name p +:+ " TextEdit text set to '" +:+ text
                               +:+ "'" +:+ endl))).
Proof.
  intros Happ.
  destruct (createTextEdit_run p app s Happ) as (e1 & He1 & Hrun1).
  assert (e1 ≠ app) by by eapply fresh_live.
  set (s1 := State (<[e1 := text_edit p ""]> (heap s)) _ _) in Hrun1.
  assert (Happ1 : heap s1 !! app = Some (application p))
    by (cbn; by rewrite lookup_insert_ne).
  destruct (createTextEdit_run p app s1 Happ1) as (e2 & He2 & Hrun2).
  cbn [heap news cout s1] in *.
  apply lookup_insert_None in He2 as [He2 Hne].
  exists e1, e2. do 3 (split; [done|]).
  run_with Hrun1. run_with Hrun2.
  erewrite bind_run; [|eapply (setText_run p e1 ""); live].
  cbn [heap news cout].
  erewrite bind_run; [|eapply (getText_run p e1 text); live].
  erewrite bind_run; [|eapply (getText_run p e2 ""); live].
  rewrite ret_run. do 3 f_equal.
  - heap_eq.
  - by rewrite <-app_assoc.
Qed.

Lemma text_edits_independent_witness :
  ∃ first second,
    first ≠ second ∧
    ({[1%positive := MacOSWindowApplication]} : gmap loc object) !! first = None ∧
    ({[1%positive := MacOSWindowApplication]} : gmap loc object) !! second = None ∧
    (first ← WindowApplication_createTextEdit 1%positive;
     second ← WindowApplication_createTextEdit 1%positive;
     TextEdit_setText first "note";;
     text1 ← TextEdit_getText first;
     text2 ← TextEdit_getText second;
     mret (first, second, text1, text2))
      (State {[1%positive := MacOSWindowApplication]} [] "") =
      Some ((first, second, "note", ""),
            State (<[first := MacOSTextEdit "note"]>
                     (<[second := MacOSTextEdit ""]>
                        {[1%positive := MacOSWindowApplication]}))
                  [MacOSTextEdit ""; MacOSTextEdit ""]
                  ("MacOS TextEdit text set to 'note'" +:+ endl)).
Proof.
  exact (text_edits_independent MacOS 1%positive "note"
           (State {[1%positive := MacOSWindowApplication]} [] "") eq_refl).
Defined.

(** X12. A button of either family keeps no state: [n] clicks in a row
    print the family's line [n] times and change no object. *)
Theorem buttonClick_repeatable p this n : ∀ s,
  heap s !! this = Some (button p) →
  buttonClick_times n this s =
    Some (tt, State (heap s) (news s) (cout s +:+ click_lines p n)).
Proof.
  induction n as [|n IH]; intros s Hthis.
  - cbn [buttonClick_times click_lines]. rewrite append_empty_r. by destruct s.
  - cbn [buttonClick_times click_lines].
    run_with (buttonClick_run p this s Hthis).
    rewrite IH by done. cbn [heap news cout]. by rewrite append_assoc.
Qed.

Lemma buttonClick_repeatable_witness :
  buttonClick_times 2 1%positive (State {[1%positive := WindowsButton]} [] "> ") =
    Some (tt, State {[1%positive := WindowsButton]} []
                    ("> Windows button was clicked" +:+ endl +:+
                     "Windows button was clicked" +:+ endl)).
Proof.
  exact (buttonClick_repeatable Windows 1%positive 2
           (State {[1%positive := WindowsButton]} [] "> ") eq_refl).
Defined.

(** X13. The products do not depend on the factory that made them:
    with the factory deleted right after the two products were created, the
    button still clicks and the text edit still stores and returns its
    text. *)
Theorem products_outlive_factory p app text s :
  heap s !! app = Some (application p) →
  ∃ button1 textEdit,
    button1 ≠ textEdit ∧ heap s !! button1 = None ∧ heap s !! textEdit = None ∧
    (button1 ← WindowApplication_createButton app;
     textEdit ← WindowApplication_createTextEdit app;
     free app;;
     Button_buttonClick button1;;
     TextEdit_setText textEdit text;;
     stored ← TextEdit_getText textEdit;
     mret (button1, textEdit, stored)) s =
      Some ((button1, textEdit, text),
            State (<[textEdit := text_edit p text]>
                     (<[button1 := button p]> (delete app (heap s))))
                  (news s ++ [button p; text_edit p ""])
                  (cout s +:+ (name p +:+ " button was clicked" +:+ endl) +:+
                              (name p +:+ " TextEdit text set to '" +:+ text
                               +:+ "'" +:+ endl))).
Proof.
  intros Happ.
  destruct (createButton_run p app s Happ) as (b & Hb & Hrun1).
  assert (b ≠ app) by by eapply fresh_live.
  set (s1 := State (<[b := button p]> (heap s)) _ _) in Hrun1.
  assert (Happ1 : heap s1 !! app = Some (application p))
    by (cbn; by rewrite lookup_insert_ne).
  destruct (createTextEdit_run p app s1 Happ1) as (e & He & Hrun2).
  cbn [heap news cout s1] in *.
  apply lookup_insert_None in He as [He Hne].
  assert (e ≠ app) by by eapply fresh_live.
  exists b, e. do 3 (split; [done|]).
  run_with Hrun1. run_with Hrun2.
  erewrite bind_run; [|eapply (free_run app); live]. cbn [heap news cout].
  erewrite bind_run; [|eapply (buttonClick_run p b); live]. cbn [heap news cout].
  erewrite bind_run; [|eapply (setText_run p e ""); live]. cbn [heap news cout].
  erewrite bind_run; [|eapply (getText_run p e text); live].
  rewrite ret_run. do 3 f_equal.
  - heap_eq.
  - by rewrite <-app_assoc.
  - by rewrite append_assoc.
Qed.

Lemma products_outlive_factory_witness :
  ∃ button1 textEdit,
    button1 ≠ textEdit ∧
    ({[1%positive := WindowsWindowApplication]} : gmap loc object) !! button1 = None ∧
    ({[1%positive := WindowsWindowApplication]} : gmap loc object) !! textEdit = None ∧
    (button1 ← WindowApplication_createButton 1%positive;
     textEdit ← WindowApplication_createTextEdit 1%positive;
     free 1%positive;;
     Button_buttonClick button1;;
     TextEdit_setText textEdit "kept";;
     stored ← TextEdit_getText textEdit;
     mret (button1, textEdit, stored))
      (State {[1%positive := WindowsWindowApplication]} [] "") =
      Some ((button1, textEdit, "kept"),
            State (<[textEdit := WindowsTextEdit "kept"]>
                     (<[button1 := WindowsButton]>
                        (delete 1%positive {[1%positive := WindowsWindowApplication]})))
                  [WindowsButton; WindowsTextEdit ""]
                  ("Windows button was clicked" +:+ endl +:+
                   "Windows TextEdit text set to 'kept'" +:+ endl)).
Proof.
  exact (products_outlive_factory Windows 1%positive "kept"
           (State {[1%positive := WindowsWindowApplication]} [] "") eq_refl).
Defined.

(** In range, the 64 bits tested are 0 only for the number 0. *)
Lemma cpp_value_zero v : representable v → cpp_value v = 0 ↔ v = 0.
Proof.
  unfold representable, cpp_value. intros Hv. split; [|by intros ->].
  intros Hmod. apply Z.mod_divide in Hmod as [k ->]; lia.
Qed.

Lemma main_none_run pw pm s :
  cpp_value pw = 0 → cpp_value pm = 0 →
  main pw pm s =
    Some (1, State (heap s) (news s) (cout s +:+ "None of platforms is chosen!")).
Proof.
  intros Hpw Hpm. unfold main, USED_API.
  by rewrite !decide_False by (by intros []).
Qed.

Lemma USED_API_windows pw pm : cpp_value pw ≠ 0 → USED_API pw pm = OS.Windows.
Proof. intros Hpw. unfold USED_API. by rewrite decide_True. Qed.

Lemma USED_API_macos pw pm :
  cpp_value pw = 0 → cpp_value pm ≠ 0 → USED_API pw pm = OS.MacOS.
Proof.
  intros Hpw Hpm. unfold USED_API.
  rewrite decide_False by (by intros []). by rewrite decide_True.
Qed.

(** X14. Whatever numbers the two macros are defined as, [main]
    terminates with status 0 or 1 and leaves the heap as it found it: every
    object it allocated has been deleted.  The status is 1 exactly when
    both macros evaluate to 0 in the preprocessor's 64 bits; for numbers
    the preprocessor can represent, that is when both are 0. *)
Theorem main_status pw pm s :
  ∃ status s',
    main pw pm s = Some (status, s') ∧ heap s' = heap s ∧
    (status = 1 ↔ cpp_value pw = 0 ∧ cpp_value pm = 0) ∧
    (status = 0 ↔ cpp_value pw ≠ 0 ∨ cpp_value pm ≠ 0) ∧
    (representable pw → representable pm → (status = 1 ↔ pw = 0 ∧ pm = 0)).
Proof.
  destruct (decide (cpp_value pw = 0)) as [Hpw|Hpw];
    [destruct (decide (cpp_value pm = 0)) as [Hpm|Hpm]|].
  - exists 1. eexists. split; [by apply main_none_run|]. split; [done|].
    split; [done|]. split; [split; [done|tauto]|].
    intros Hrw Hrm. split; [intros _|done].
    by split; apply cpp_value_zero.
  - exists 0. eexists.
    split; [apply (factory_main_run pw pm MacOS); by apply USED_API_macos|].
    split; [done|]. split; [split; [done|tauto]|]. split; [tauto|].
    intros Hrw Hrm. split; [done|]. intros [_ ->]. by destruct Hpm.
  - exists 0. eexists.
    split; [apply (factory_main_run pw pm Windows); by apply USED_API_windows|].
    split; [done|]. split; [split; [done|tauto]|]. split; [tauto|].
    intros Hrw Hrm. split; [done|]. intros [-> _]. by destruct Hpw.
Qed.

(** X15. The Windows macro is tested first.  [main] runs the Windows
    family exactly when [PLATFORM_WINDOWS] evaluates to nonzero, whatever
    [PLATFORM_MACOS] is, and the MacOS family exactly when
    [PLATFORM_WINDOWS] evaluates to 0 and [PLATFORM_MACOS] to nonzero; the
    selector has the corresponding value in exactly these cases. *)
Theorem windows_macro_first pw pm s :
  (main pw pm s =
     Some (0, State (heap s)
                    (news s ++ [WindowsWindowApplication; WindowsButton;
                                WindowsTextEdit ""])
                    (cout s +:+ transcript Windows))
   ↔ cpp_value pw ≠ 0) ∧
  (main pw pm s =
     Some (0, State (heap s)
                    (news s ++ [MacOSWindowApplication; MacOSButton;
                                MacOSTextEdit ""])
                    (cout s +:+ transcript MacOS))
   ↔ cpp_value pw = 0 ∧ cpp_value pm ≠ 0) ∧
  (USED_API pw pm = OS.Windows ↔ cpp_value pw ≠ 0) ∧
  (USED_API pw pm = OS.MacOS ↔ cpp_value pw = 0 ∧ cpp_value pm ≠ 0) ∧
  (USED_API pw pm = OS.None ↔ cpp_value pw = 0 ∧ cpp_value pm = 0).
Proof.
  assert (Hfamilies : ∀ p q,
    Some (0, State (heap s) (news s ++ [application p; button p; text_edit p ""])
                   (cout s +:+ transcript p)) =
    Some (0, State (heap s) (news s ++ [application q; button q; text_edit q ""])
                   (cout s +:+ transcript q)) → p = q).
  { intros p q Heq. injection Heq as Heq _. apply app_inv_head in Heq.
    by destruct p, q. }
  destruct (decide (cpp_value pw = 0)) as [Hpw|Hpw];
    [destruct (decide (cpp_value pm = 0)) as [Hpm|Hpm]|].
  - rewrite (main_none_run pw pm s Hpw Hpm).
    unfold USED_API. rewrite !decide_False by (by intros []).
    repeat split; intros; try done; tauto.
  - rewrite (factory_main_run pw pm MacOS s (USED_API_macos pw pm Hpw Hpm)).
    rewrite (USED_API_macos pw pm Hpw Hpm).
    repeat split; intros; try done; try tauto;
      by assert (MacOS = Windows) by by apply Hfamilies.
  - rewrite (factory_main_run pw pm Windows s (USED_API_windows pw pm Hpw)).
    rewrite (USED_API_windows pw pm Hpw).
    repeat split; intros; try done; try tauto;
      by assert (Windows = MacOS) by by apply Hfamilies.
Qed.

End FactoryFacts.

(** ** Properties of the Builder demo *)

Module BuilderFacts.
Import Builder.

Implicit Types (s : state object) (p : platform) (st : step).
Implicit Types (this b m w : loc) (σ : string).

(** *** Products and builders *)

Lemma structure_append_run p w σ fragment s :
  heap s !! w = Some (window p σ) →
  match p with
  | Windows => WindowsWindow_structure_append
  | MacOS => MacOSWindow_structure_append
  end w fragment s =
    Some (tt, State (<[w := window p (σ +:+ fragment)]> (heap s)) (news s) (cout s)).
Proof.
  intros Hw.
  destruct p; cbn [window] in *;
    unfold WindowsWindow_structure_append, MacOSWindow_structure_append;
    run_with (load_run _ _ _ Hw); by erewrite store_run.
Qed.

Lemma getWindow_run p b w s :
  heap s !! b = Some (builder p (Some w)) →
  getWindow p b s = Some (w, s).
Proof.
  intros Hb.
  destruct p; cbn [builder getWindow] in *;
    unfold WindowsWindowBuilder_getWindow, WindowsWindowBuilder_window,
           MacOSWindowBuilder_getWindow, MacOSWindowBuilder_window;
    by run_with (load_run _ _ _ Hb).
Qed.

Lemma printStructure_run p w σ s :
  heap s !! w = Some (window p σ) →
  printStructure p w s =
    Some (tt, State (heap s) (news s) (cout s +:+ (σ +:+ endl))).
Proof.
  intros Hw.
  destruct p; cbn [window printStructure] in *;
    unfold WindowsWindow_printStructure, MacOSWindow_printStructure;
    by run_with (load_run _ _ _ Hw).
Qed.

Lemma reset_run p b old s :
  heap s !! b = Some (builder p old) →
  ∃ w, heap s !! w = None ∧
       reset p b s =
         Some (tt, State (<[b := builder p (Some w)]> (<[w := window p ""]> (heap s)))
                         (news s ++ [window p ""]) (cout s)).
Proof.
  intros Hb.
  destruct (new_run (window p "") s) as (w & Hw & Hnew).
  exists w. split; [done|].
  assert (Hb' : <[w := window p ""]> (heap s) !! b = Some (builder p old)).
  { rewrite lookup_insert_ne; [done|]. by eapply fresh_live. }
  destruct p; cbn [builder window reset] in *;
    unfold WindowsWindowBuilder_reset, MacOSWindowBuilder_reset;
    run_with Hnew;
    (erewrite bind_run; [|by apply load_run]); cbn beta iota;
    by erewrite store_run by exact Hb'.
Qed.

(** Each step of the interface, on a builder whose product is live. *)
Lemma call_run p st b w σ s :
  heap s !! b = Some (builder p (Some w)) →
  heap s !! w = Some (window p σ) →
  call st b s =
    Some (tt, State (<[w := window p (σ +:+ fragment p st)]> (heap s))
                    (news s) (cout s)).
Proof.
  intros Hb Hw.
  pose proof (structure_append_run p w σ (fragment p st) s Hw) as Happend.
  destruct p, st; cbn [builder window call] in *;
    unfold WindowBuilder_createNativeWindow, WindowBuilder_addMenubar,
           WindowBuilder_setTitle, WindowBuilder_setDefaultBackgroundColor;
    run_with (load_run _ _ _ Hb);
    unfold WindowsWindowBuilder_createNativeWindow, WindowsWindowBuilder_addMenubar,
           WindowsWindowBuilder_setTitle, WindowsWindowBuilder_setDefaultBackgroundColor,
           MacOSWindowBuilder_createNativeWindow, MacOSWindowBuilder_addMenubar,
           MacOSWindowBuilder_setTitle, MacOSWindowBuilder_setDefaultBackgroundColor,
           WindowsWindowBuilder_window, MacOSWindowBuilder_window;
    (erewrite bind_run; [|by run_with (load_run _ _ _ Hb)]);
    exact Happend.
Qed.

(** *** The director *)

Lemma m_builder_run m b s :
  heap s !! m = Some (WindowCreationManager (Some b)) →
  WindowCreationManager_m_builder m s = Some (b, s).
Proof.
  intros Hm. unfold WindowCreationManager_m_builder.
  by run_with (load_run _ _ _ Hm).
Qed.

(** A recipe run on a builder whose product is live appends the fragments
    of its steps, in the order of the list, and touches nothing else. *)
Lemma perform_run p m b w steps : ∀ σ s,
  heap s !! m = Some (WindowCreationManager (Some b)) →
  heap s !! b = Some (builder p (Some w)) →
  heap s !! w = Some (window p σ) →
  perform m steps s =
    Some (tt, State (<[w := window p (σ +:+ fragments p steps)]> (heap s))
                    (news s) (cout s)).
Proof.
  induction steps as [|st steps IH]; intros σ s Hm Hb Hw.
  - cbn [perform fragments foldr]. rewrite append_empty_r, insert_id by done.
    by destruct s.
  - cbn [perform fragments foldr].
    erewrite bind_run;
      [|run_with (m_builder_run m b s Hm); by apply (call_run p)].
    assert (w ≠ m) by (eapply distinct_objects; [done..|by destruct p]).
    assert (w ≠ b) by (eapply distinct_objects; [done..|by destruct p]).
    erewrite IH; cbn [heap news cout].
    + by rewrite insert_insert_eq, append_assoc.
    + by rewrite lookup_insert_ne.
    + by rewrite lookup_insert_ne.
    + apply lookup_insert_eq.
Qed.

Lemma createWindowWithTitle_perform m title s :
  WindowCreationManager_createWindowWithTitle m title s =
    perform m [createNativeWindow; addMenubar; setTitle title;
               setDefaultBackgroundColor] s.
Proof.
  unfold WindowCreationManager_createWindowWithTitle. cbn [perform call].
  do 3 (apply bind_ext; intros _ ?). symmetry. apply bind_ret_tt.
Qed.

Lemma createWindowWithTitle_run p m b w σ title s :
  heap s !! m = Some (WindowCreationManager (Some b)) →
  heap s !! b = Some (builder p (Some w)) →
  heap s !! w = Some (window p σ) →
  WindowCreationManager_createWindowWithTitle m title s =
    Some (tt, State (<[w := window p (σ +:+
                        (fragment p createNativeWindow +:+ fragment p addMenubar +:+
                         fragment p (setTitle title) +:+
                         fragment p setDefaultBackgroundColor))]> (heap s))
                    (news s) (cout s)).
Proof.
  intros Hm Hb Hw. rewrite createWindowWithTitle_perform.
  rewrite (perform_run p m b w _ σ s Hm Hb Hw).
  cbn [fragments foldr]. by rewrite append_empty_r.
Qed.

(** Building with a title and printing the product, on a builder whose
    product is live. *)
Lemma build_and_print_run p m b w σ title s :
  heap s !! m = Some (WindowCreationManager (Some b)) →
  heap s !! b = Some (builder p (Some w)) →
  heap s !! w = Some (window p σ) →
  (WindowCreationManager_createWindowWithTitle m title;;
   window ← getWindow p b;
   printStructure p window) s =
    Some (tt, State (<[w := window p (σ +:+
                        (fragment p createNativeWindow +:+ fragment p addMenubar +:+
                         fragment p (setTitle title) +:+
                         fragment p setDefaultBackgroundColor))]> (heap s))
                    (news s)
                    (cout s +:+ ((σ +:+
                        (fragment p createNativeWindow +:+ fragment p addMenubar +:+
                         fragment p (setTitle title) +:+
                         fragment p setDefaultBackgroundColor)) +:+ endl))).
Proof.
  intros Hm Hb Hw.
  run_with (createWindowWithTitle_run p m b w σ title s Hm Hb Hw).
  assert (w ≠ b) by (eapply distinct_objects; [done..|by destruct p]).
  erewrite bind_run;
    [|eapply getWindow_run; cbn [heap]; by rewrite lookup_insert_ne].
  erewrite printStructure_run; [done|]. cbn [heap]. apply lookup_insert_eq.
Qed.

(** *** The recipes *)

(** C3. On a freshly reset builder of either platform (its product is
    live and still empty), [createDefaultWindow] followed by
    [printStructure] prints the four fragments of the platform in the order
    native window, menubar, title, background, the title fragment carrying
    the fixed title "New Window"; that description is what the product now
    holds. *)
Theorem default_window_description p m b w s :
  heap s !! m = Some (WindowCreationManager (Some b)) →
  heap s !! b = Some (builder p (Some w)) →
  heap s !! w = Some (window p "") →
  (WindowCreationManager_createDefaultWindow m;;
   window ← getWindow p b;
   printStructure p window) s =
    Some (tt, State (<[w := window p
                        (fragment p createNativeWindow +:+ fragment p addMenubar +:+
                         ("Window title: " +:+ "New Window" +:+ ";") +:+
                         fragment p setDefaultBackgroundColor)]> (heap s))
                    (news s)
                    (cout s +:+
                       ((fragment p createNativeWindow +:+ fragment p addMenubar +:+
                         ("Window title: " +:+ "New Window" +:+ ";") +:+
                         fragment p setDefaultBackgroundColor) +:+ endl))).
Proof.
  intros Hm Hb Hw.
  exact (build_and_print_run p m b w "" "New Window" s Hm Hb Hw).
Qed.

Lemma default_window_description_witness :
  (WindowCreationManager_createDefaultWindow 1%positive;;
   window ← getWindow MacOS 2%positive;
   printStructure MacOS window)
    (State {[1%positive := WindowCreationManager (Some 2%positive);
             2%positive := MacOSWindowBuilder (Some 3%positive);
             3%positive := MacOSWindow ""]} [] "") =
  Some (tt, State (<[3%positive := MacOSWindow
                       "Window: Standard MacOS; Menubar: MacOS default; Window title: New Window;Background color: MacOS default; "]>
                     {[1%positive := WindowCreationManager (Some 2%positive);
                       2%positive := MacOSWindowBuilder (Some 3%positive);
                       3%positive := MacOSWindow ""]})
                  []
                  ("Window: Standard MacOS; Menubar: MacOS default; Window title: New Window;Background color: MacOS default; "
                   +:+ endl)).
Proof.
  exact (default_window_description MacOS 1%positive 2%positive 3%positive
           (State {[1%positive := WindowCreationManager (Some 2%positive);
                    2%positive := MacOSWindowBuilder (Some 3%positive);
                    3%positive := MacOSWindow ""]} [] "")
           eq_refl eq_refl eq_refl).
Defined.

(** C4. In every state, [createDefaultWindow] does exactly what
    [createWindowWithTitle("New Window")] does, and [createWindowWithTitle]
    with any title is the four steps createNativeWindow, addMenubar,
    setTitle(title), setDefaultBackgroundColor, in this order, each called
    on the builder the director points to. *)
Theorem recipes_same_steps m s :
  WindowCreationManager_createDefaultWindow m s =
    WindowCreationManager_createWindowWithTitle m "New Window" s ∧
  ∀ title,
    WindowCreationManager_createWindowWithTitle m title s =
      perform m [createNativeWindow; addMenubar; setTitle title;
                 setDefaultBackgroundColor] s.
Proof.
  split; [reflexivity|]. intros title. apply createWindowWithTitle_perform.
Qed.

(** C5. Whatever a builder of either platform has accumulated before
    (its [window] may point to a product with any description, to a deleted
    product, or nowhere), [reset()] makes it point to a new product with an
    empty description, and [reset()] followed by
    [createWindowWithTitle("New title")] and [printStructure] prints the
    four fragments with the title "New title" and nothing else; no object
    that was live before, the builder apart, is changed. *)
Theorem reset_starts_afresh p m b old s :
  heap s !! m = Some (WindowCreationManager (Some b)) →
  heap s !! b = Some (builder p old) →
  ∃ w, heap s !! w = None ∧
    reset p b s =
      Some (tt, State (<[b := builder p (Some w)]> (<[w := window p ""]> (heap s)))
                      (news s ++ [window p ""]) (cout s)) ∧
    (reset p b;;
     WindowCreationManager_createWindowWithTitle m "New title";;
     window ← getWindow p b;
     printStructure p window) s =
      Some (tt, State (<[w := window p
                          (fragment p createNativeWindow +:+ fragment p addMenubar +:+
                           ("Window title: " +:+ "New title" +:+ ";") +:+
                           fragment p setDefaultBackgroundColor)]>
                         (<[b := builder p (Some w)]> (heap s)))
                      (news s ++ [window p ""])
                      (cout s +:+
                         ((fragment p createNativeWindow +:+ fragment p addMenubar +:+
                           ("Window title: " +:+ "New title" +:+ ";") +:+
                           fragment p setDefaultBackgroundColor) +:+ endl))).
Proof.
  intros Hm Hb.
  destruct (reset_run p b old s Hb) as (w & Hw & Hreset).
  exists w. split; [done|]. split; [done|].
  run_with Hreset.
  assert (w ≠ b) by by eapply fresh_live.
  assert (w ≠ m) by by eapply fresh_live.
  assert (b ≠ m) by (eapply distinct_objects; [done..|by destruct p]).
  erewrite (build_and_print_run p m b w ""); cbn [heap news cout].
  - do 3 f_equal.
    rewrite (insert_insert_ne _ w b) by done.
    by rewrite insert_insert_eq, (insert_insert_ne _ b w).
  - by rewrite !lookup_insert_ne.
  - apply lookup_insert_eq.
  - rewrite lookup_insert_ne by done. apply lookup_insert_eq.
Qed.

Lemma reset_starts_afresh_witness :
  ∃ w, ({[1%positive := WindowCreationManager (Some 2%positive);
          2%positive := WindowsWindowBuilder (Some 3%positive);
          3%positive := WindowsWindow "left over from a prior build"]}
          : gmap loc object) !! w = None ∧
    reset Windows 2%positive
      (State {[1%positive := WindowCreationManager (Some 2%positive);
               2%positive := WindowsWindowBuilder (Some 3%positive);
               3%positive := WindowsWindow "left over from a prior build"]} [] "") =
      Some (tt, State (<[2%positive := WindowsWindowBuilder (Some w)]>
                         (<[w := WindowsWindow ""]>
                            {[1%positive := WindowCreationManager (Some 2%positive);
                              2%positive := WindowsWindowBuilder (Some 3%positive);
                              3%positive := WindowsWindow "left over from a prior build"]}))
                      [WindowsWindow ""] "") ∧
    (reset Windows 2%positive;;
     WindowCreationManager_createWindowWithTitle 1%positive "New title";;
     window ← getWindow Windows 2%positive;
     printStructure Windows window)
      (State {[1%positive := WindowCreationManager (Some 2%positive);
               2%positive := WindowsWindowBuilder (Some 3%positive);
               3%positive := WindowsWindow "left over from a prior build"]} [] "") =
      Some (tt, State (<[w := WindowsWindow
                           "Window: Standard Windows; Menubar: Windows default; Window title: New title;Background color: Windows default; "]>
                         (<[2%positive := WindowsWindowBuilder (Some w)]>
                            {[1%positive := WindowCreationManager (Some 2%positive);
                              2%positive := WindowsWindowBuilder (Some 3%positive);
                              3%positive := WindowsWindow "left over from a prior build"]}))
                      [WindowsWindow ""]
                      ("Window: Standard Windows; Menubar: Windows default; Window title: New title;Background color: Windows default; "
                       +:+ endl)).
Proof.
  exact (reset_starts_afresh Windows 1%positive 2%positive (Some 3%positive)
           (State {[1%positive := WindowCreationManager (Some 2%positive);
                    2%positive := WindowsWindowBuilder (Some 3%positive);
                    3%positive := WindowsWindow "left over from a prior build"]} [] "")
           eq_refl eq_refl).
Defined.

(** *** The steps *)

(** C6. On a builder of either platform whose product is live, each of
    the four steps replaces the product's description by that description
    followed by the step's fragment, and changes nothing else: not the
    builder, not any other object, not the output.  [getWindow()] hands out
    the product without changing anything, so a step called after it
    appends to that same product, which the builder still hands out
    afterwards. *)
Theorem step_appends p st b w σ s :
  heap s !! b = Some (builder p (Some w)) →
  heap s !! w = Some (window p σ) →
  call st b s =
    Some (tt, State (<[w := window p (σ +:+ fragment p st)]> (heap s))
                    (news s) (cout s)) ∧
  (handed ← getWindow p b;
   call st b;;
   again ← getWindow p b;
   mret (handed, again)) s =
    Some ((w, w), State (<[w := window p (σ +:+ fragment p st)]> (heap s))
                        (news s) (cout s)).
Proof.
  intros Hb Hw. split; [by apply call_run|].
  run_with (getWindow_run p b w s Hb).
  run_with (call_run p st b w σ s Hb Hw).
  assert (w ≠ b) by (eapply distinct_objects; [done..|by destruct p]).
  erewrite bind_run; [done|].
  apply getWindow_run. cbn [heap]. by rewrite lookup_insert_ne.
Qed.

Lemma step_appends_witness :
  call (setTitle "Editor") 2%positive
    (State {[2%positive := WindowsWindowBuilder (Some 3%positive);
             3%positive := WindowsWindow "Window: Standard Windows; "]} [] "") =
    Some (tt, State (<[3%positive := WindowsWindow
                         "Window: Standard Windows; Window title: Editor;"]>
                       {[2%positive := WindowsWindowBuilder (Some 3%positive);
                         3%positive := WindowsWindow "Window: Standard Windows; "]})
                    [] "") ∧
  (handed ← getWindow Windows 2%positive;
   call (setTitle "Editor") 2%positive;;
   again ← getWindow Windows 2%positive;
   mret (handed, again))
    (State {[2%positive := WindowsWindowBuilder (Some 3%positive);
             3%positive := WindowsWindow "Window: Standard Windows; "]} [] "") =
    Some ((3%positive, 3%positive),
          State (<[3%positive := WindowsWindow
                     "Window: Standard Windows; Window title: Editor;"]>
                   {[2%positive := WindowsWindowBuilder (Some 3%positive);
                     3%positive := WindowsWindow "Window: Standard Windows; "]})
                [] "").
Proof.
  exact (step_appends Windows (setTitle "Editor") 2%positive 3%positive
           "Window: Standard Windows; "
           (State {[2%positive := WindowsWindowBuilder (Some 3%positive);
                    3%positive := WindowsWindow "Window: Standard Windows; "]} [] "")
           eq_refl eq_refl).
Defined.

(** *** The whole run *)

Lemma builder_main_run :
  main init =
    Some (0, State ∅
               [WindowCreationManager None;
                WindowsWindowBuilder None; WindowsWindow ""; WindowsWindow "";
                MacOSWindowBuilder None; MacOSWindow ""; MacOSWindow ""]
               (("Window: Standard Windows; Menubar: Windows default; Window title: New Window;Background color: Windows default; " +:+ endl) +:+
                ("Window: Standard Windows; Menubar: Windows default; Window title: New title;Background color: Windows default; " +:+ endl) +:+
                ("Window: Standard MacOS; Menubar: MacOS default; Window title: New Window;Background color: MacOS default; " +:+ endl) +:+
                ("Window: Standard MacOS; Menubar: MacOS default; Window title: New title;Background color: MacOS default; " +:+ endl))).
Proof. vm_compute. reflexivity. Qed.

(** The run of the builder demo constructs builders and products of both
    families, Windows first: it does not have exactly one family active. *)
Lemma builder_run_two_families :
  ∃ s', main init = Some (0, s') ∧
        active_families family s' = [Windows; MacOS] ∧
        ¬ one_family_active family s'.
Proof.
  eexists. split; [apply builder_main_run|]. split; [reflexivity|].
  intros [p Hp]. discriminate Hp.
Qed.

(** *** Construction and destruction *)

Lemma setBuilder_run m old b s :
  heap s !! m = Some (WindowCreationManager old) →
  WindowCreationManager_setBuilder m b s =
    Some (tt, State (<[m := WindowCreationManager (Some b)]> (heap s))
                    (news s) (cout s)).
Proof.
  intros Hm. unfold WindowCreationManager_setBuilder.
  run_with (load_run _ _ _ Hm). by erewrite store_run.
Qed.

Lemma new_builder_run p s :
  ∃ b w, heap s !! b = None ∧ heap s !! w = None ∧ b ≠ w ∧
    new_builder p s =
      Some (b, State (<[b := builder p (Some w)]> (<[w := window p ""]> (heap s)))
                     (news s ++ [builder p None; window p ""]) (cout s)).
Proof.
  destruct (new_run (builder p None) s) as (b & Hb & Hnew).
  assert (Hlive : heap (State (<[b := builder p None]> (heap s))
                              (news s ++ [builder p None]) (cout s)) !! b =
                  Some (builder p None)) by apply lookup_insert_eq.
  destruct (reset_run p b None _ Hlive) as (w & Hw & Hreset).
  cbn [heap news cout] in Hw, Hreset.
  apply lookup_insert_None in Hw as [Hw Hbw].
  exists b, w. do 3 (split; [done|]).
  assert (Hrun : (this ← new (builder p None); reset p this;; mret this) s =
    Some (b, State (<[b := builder p (Some w)]> (<[w := window p ""]> (heap s)))
                   (news s ++ [builder p None; window p ""]) (cout s))).
  { run_with Hnew. run_with Hreset. rewrite ret_run. do 3 f_equal.
    - heap_eq.
    - by rewrite <-app_assoc. }
  by destruct p.
Qed.

Lemma delete_window_run p w σ s :
  heap s !! w = Some (window p σ) →
  delete_window p w s = Some (tt, State (delete w (heap s)) (news s) (cout s)).
Proof.
  intros Hw.
  destruct p; cbn [window delete_window] in *;
    unfold WindowsWindow_delete, MacOSWindow_delete;
    run_with (load_run _ _ _ Hw); by erewrite free_run.
Qed.

Lemma delete_builder_run p b w σ s :
  heap s !! b = Some (builder p (Some w)) →
  heap s !! w = Some (window p σ) →
  delete_builder p b s =
    Some (tt, State (delete b (delete w (heap s))) (news s) (cout s)).
Proof.
  intros Hb Hw.
  assert (w ≠ b) by (eapply distinct_objects; [done..|by destruct p]).
  pose proof (getWindow_run p b w s Hb) as Hget.
  pose proof (delete_window_run p w σ s Hw) as Hdel.
  assert (Hrun : (window ← getWindow p b; delete_window p window;; free b) s =
    Some (tt, State (delete b (delete w (heap s))) (news s) (cout s))).
  { run_with Hget. run_with Hdel. erewrite free_run; [done|].
    cbn [heap]. by rewrite lookup_delete_ne. }
  by destruct p.
Qed.

(** *** The client *)

(** Replacing the heap of the state a command runs on by an equal one. *)
Ltac heap_is h' :=
  match goal with
  | |- _ (State ?h _ _) = _ => replace h with h' by (symmetry; heap_eq)
  end.

Lemma session_run p m old s :
  heap s !! m = Some (WindowCreationManager old) →
  ∃ b, heap s !! b = None ∧
    session p m s =
      Some (tt, State (<[m := WindowCreationManager (Some b)]> (heap s))
                      (news s ++ [builder p None; window p ""; window p ""])
                      (cout s +:+ (description p "New Window" +:+ endl) +:+
                                  (description p "New title" +:+ endl))).
Proof.
  intros Hm. destruct s as [h n c]. cbn [heap news cout] in *.
  destruct (new_builder_run p (State h n c)) as (b & w & Hb & Hw & Hbw & Hnew).
  cbn [heap news cout] in *.
  assert (b ≠ m) by by eapply fresh_live.
  assert (w ≠ m) by by eapply fresh_live.
  exists b. split; [done|]. unfold session.
  run_with Hnew.
  erewrite bind_run;
    [|eapply setBuilder_run; live].
  cbn [heap news cout].
  erewrite bind_run;
    [|eapply (createWindowWithTitle_run p m b w ""); live].
  cbn [heap news cout].
  erewrite bind_run;
    [|eapply (getWindow_run p b w); live].
  erewrite bind_run;
    [|eapply printStructure_run; live].
  cbn [heap news cout].
  erewrite bind_run;
    [|eapply delete_window_run; live].
  cbn [heap news cout].
  heap_is (<[m := WindowCreationManager (Some b)]> (<[b := builder p (Some w)]> h)).
  set (s4 := State (<[m := WindowCreationManager (Some b)]>
                      (<[b := builder p (Some w)]> h)) _ _).
  assert (Hb4 : heap s4 !! b = Some (builder p (Some w))).
  { cbn. rewrite lookup_insert_ne by done. apply lookup_insert_eq. }
  destruct (reset_run p b (Some w) s4 Hb4) as (w' & Hw' & Hreset).
  run_with Hreset. clear Hreset. cbn [heap news cout s4] in *. clear s4.
  apply lookup_insert_None in Hw' as [Hw' Hmw'].
  apply lookup_insert_None in Hw' as [Hw' Hbw'].
  erewrite bind_run;
    [|eapply (createWindowWithTitle_run p m b w' ""); live].
  cbn [heap news cout].
  erewrite bind_run;
    [|eapply (getWindow_run p b w'); live].
  erewrite bind_run;
    [|eapply printStructure_run; live].
  cbn [heap news cout].
  erewrite (delete_builder_run p b w'); [|live..]. cbn [heap news cout].
  do 3 f_equal.
  - heap_eq.
  - by rewrite <-app_assoc.
  - by rewrite append_assoc.
Qed.

Lemma client_code_sessions m s :
  client_code m s = (session Windows m;; session MacOS m) s.
Proof. reflexivity. Qed.

Lemma builder_client_code_run m old s :
  heap s !! m = Some (WindowCreationManager old) →
  ∃ b, heap s !! b = None ∧
    client_code m s =
      Some (tt, State (<[m := WindowCreationManager (Some b)]> (heap s))
                      (news s ++ [builder Windows None; window Windows ""; window Windows "";
                                  builder MacOS None; window MacOS ""; window MacOS ""])
                      (cout s +:+ (description Windows "New Window" +:+ endl) +:+
                                  (description Windows "New title" +:+ endl) +:+
                                  (description MacOS "New Window" +:+ endl) +:+
                                  (description MacOS "New title" +:+ endl))).
Proof.
  intros Hm. rewrite client_code_sessions.
  destruct (session_run Windows m old s Hm) as (b1 & Hb1 & Hrun1).
  run_with Hrun1.
  set (s1 := State _ _ _).
  assert (Hm1 : heap s1 !! m = Some (WindowCreationManager (Some b1)))
    by apply lookup_insert_eq.
  destruct (session_run MacOS m (Some b1) s1 Hm1) as (b2 & Hb2 & Hrun2).
  cbn [heap news cout s1] in *.
  apply lookup_insert_None in Hb2 as [Hb2 Hmb2].
  exists b2. split; [done|]. rewrite Hrun2. do 3 f_equal.
  - apply insert_insert_eq.
  - by rewrite <-app_assoc.
  - by rewrite !append_assoc.
Qed.

(** *** Undefined calls *)


Lemma call_product_freed p st b w s :
  heap s !! b = Some (builder p (Some w)) →
  heap s !! w = None →
  call st b s = None.
Proof.
  intros Hb Hw.
  assert (Hwindow : match p with
                    | Windows => WindowsWindowBuilder_window
                    | MacOS => MacOSWindowBuilder_window
                    end b s = Some (w, s)) by apply (getWindow_run p b w s Hb).
  destruct p, st; cbn [builder call] in *;
    unfold WindowBuilder_createNativeWindow, WindowBuilder_addMenubar,
           WindowBuilder_setTitle, WindowBuilder_setDefaultBackgroundColor;
    run_with (load_run _ _ _ Hb);
    unfold WindowsWindowBuilder_createNativeWindow, WindowsWindowBuilder_addMenubar,
           WindowsWindowBuilder_setTitle, WindowsWindowBuilder_setDefaultBackgroundColor,
           MacOSWindowBuilder_createNativeWindow, MacOSWindowBuilder_addMenubar,
           MacOSWindowBuilder_setTitle, MacOSWindowBuilder_setDefaultBackgroundColor;
    run_with Hwindow;
    apply bind_undefined; by apply load_dangling.
Qed.

Lemma delete_builder_product_freed p b w s :
  heap s !! b = Some (builder p (Some w)) →
  heap s !! w = None →
  delete_builder p b s = None.
Proof.
  intros Hb Hw.
  assert (Hwindow : match p with
                    | Windows => WindowsWindowBuilder_window
                    | MacOS => MacOSWindowBuilder_window
                    end b s = Some (w, s)) by apply (getWindow_run p b w s Hb).
  destruct p; cbn [delete_builder];
    unfold WindowsWindowBuilder_delete, MacOSWindowBuilder_delete;
    run_with Hwindow;
    apply bind_undefined, bind_undefined; by apply load_dangling.
Qed.

(** A recipe starts with createNativeWindow on the director's builder. *)
Lemma recipe_first_step m title s :
  (m_builder ← WindowCreationManager_m_builder m;
   call createNativeWindow m_builder) s = None →
  WindowCreationManager_createWindowWithTitle m title s = None.
Proof. intros Hfirst. by apply bind_undefined. Qed.

(** *** More on the builders, the director and the client *)

(** X1. From any state, [main] of the builder demo returns 0 and prints
    four lines: the default and the "New title" description, for Windows
    and then for MacOS; everything it allocated is freed again, so the heap
    is left as it was found. *)
Theorem builder_main_frees_everything s :
  main s =
    Some (0, State (heap s)
               (news s ++
                  [WindowCreationManager None;
                   WindowsWindowBuilder None; WindowsWindow ""; WindowsWindow "";
                   MacOSWindowBuilder None; MacOSWindow ""; MacOSWindow ""])
               (cout s +:+
                ("Window: Standard Windows; Menubar: Windows default; Window title: New Window;Background color: Windows default; " +:+ endl) +:+
                ("Window: Standard Windows; Menubar: Windows default; Window title: New title;Background color: Windows default; " +:+ endl) +:+
                ("Window: Standard MacOS; Menubar: MacOS default; Window title: New Window;Background color: MacOS default; " +:+ endl) +:+
                ("Window: Standard MacOS; Menubar: MacOS default; Window title: New title;Background color: MacOS default; " +:+ endl))).
Proof.
  unfold main.
  destruct (new_run (WindowCreationManager None) s) as (m & Hm & Hnew).
  run_with Hnew.
  set (s1 := State _ _ _).
  assert (Hm1 : heap s1 !! m = Some (WindowCreationManager None))
    by apply lookup_insert_eq.
  destruct (builder_client_code_run m None s1 Hm1) as (b & Hb & Hrun).
  run_with Hrun. cbn [heap news cout s1].
  erewrite bind_run; [|eapply free_run; live].
  rewrite ret_run. cbn [heap news cout]. do 3 f_equal.
  - heap_eq.
  - by rewrite <-app_assoc.
Qed.



(** X3. Without a [reset()] in between, a second recipe appends to the
    product of the first: after [createDefaultWindow] and then
    [createWindowWithTitle(title)] the one product holds what it held
    before, then the default description, then the titled one, and that is
    what [printStructure] prints. *)
Theorem recipes_accumulate p m b w σ title s :
  heap s !! m = Some (WindowCreationManager (Some b)) →
  heap s !! b = Some (builder p (Some w)) →
  heap s !! w = Some (window p σ) →
  (WindowCreationManager_createDefaultWindow m;;
   WindowCreationManager_createWindowWithTitle m title;;
   window ← getWindow p b;
   printStructure p window) s =
    Some (tt, State (<[w := window p (σ +:+ description p "New Window" +:+
                                     description p title)]> (heap s))
                    (news s)
                    (cout s +:+ (σ +:+ description p "New Window" +:+
                                 description p title) +:+ endl)).
Proof.
  intros Hm Hb Hw.
  assert (w ≠ m) by (eapply distinct_objects; [done..|by destruct p]).
  assert (w ≠ b) by (eapply distinct_objects; [done..|by destruct p]).
  run_with (createWindowWithTitle_run p m b w σ "New Window" s Hm Hb Hw).
  erewrite (build_and_print_run p m b w); [|live..]. cbn [heap news cout].
  unfold description. by rewrite insert_insert_eq, !append_assoc.
Qed.

Lemma recipes_accumulate_witness :
  (WindowCreationManager_createDefaultWindow 1%positive;;
   WindowCreationManager_createWindowWithTitle 1%positive "Second";;
   window ← getWindow Windows 2%positive;
   printStructure Windows window)
    (State {[1%positive := WindowCreationManager (Some 2%positive);
             2%positive := WindowsWindowBuilder (Some 3%positive);
             3%positive := WindowsWindow ""]} [] "") =
  Some (tt, State (<[3%positive := WindowsWindow
                       "Window: Standard Windows; Menubar: Windows default; Window title: New Window;Background color: Windows default; Window: Standard Windows; Menubar: Windows default; Window title: Second;Background color: Windows default; "]>
                     {[1%positive := WindowCreationManager (Some 2%positive);
                       2%positive := WindowsWindowBuilder (Some 3%positive);
                       3%positive := WindowsWindow ""]})
                  []
                  ("Window: Standard Windows; Menubar: Windows default; Window title: New Window;Background color: Windows default; Window: Standard Windows; Menubar: Windows default; Window title: Second;Background color: Windows default; "
                   +:+ endl)).
Proof.
  exact (recipes_accumulate Windows 1%positive 2%positive 3%positive "" "Second"
           (State {[1%positive := WindowCreationManager (Some 2%positive);
                    2%positive := WindowsWindowBuilder (Some 3%positive);
                    3%positive := WindowsWindow ""]} [] "")
           eq_refl eq_refl eq_refl).
Defined.

(** X4. A director as [new WindowCreationManager] leaves it has no
    builder: either recipe called before [setBuilder] is undefined. *)
Theorem recipe_before_setBuilder title s :
  (manager ← new (WindowCreationManager None);
   WindowCreationManager_createDefaultWindow manager) s = None ∧
  (manager ← new (WindowCreationManager None);
   WindowCreationManager_createWindowWithTitle manager title) s = None.
Proof.
  destruct (new_run (WindowCreationManager None) s) as (m & Hm & Hnew).
  set (s' := State _ _ _) in Hnew.
  assert (Hfirst : (m_builder ← WindowCreationManager_m_builder m;
                    call createNativeWindow m_builder) s' = None).
  { apply bind_undefined. unfold WindowCreationManager_m_builder.
    erewrite bind_run; [|apply load_run, lookup_insert_eq]. reflexivity. }
  split; run_with Hnew.
  - by apply (recipe_first_step m "New Window").
  - by apply recipe_first_step.
Qed.

(** X5. [setBuilder] redirects the director: whatever builder it pointed
    to before, a recipe called after [setBuilder(b)] appends its description
    to the product of [b], and apart from the director's pointer nothing
    else changes. *)
Theorem setBuilder_redirects p m old b w σ title s :
  heap s !! m = Some (WindowCreationManager old) →
  heap s !! b = Some (builder p (Some w)) →
  heap s !! w = Some (window p σ) →
  (WindowCreationManager_setBuilder m b;;
   WindowCreationManager_createWindowWithTitle m title) s =
    Some (tt, State (<[w := window p (σ +:+ description p title)]>
                       (<[m := WindowCreationManager (Some b)]> (heap s)))
                    (news s) (cout s)).
Proof.
  intros Hm Hb Hw.
  assert (m ≠ w) by (eapply distinct_objects; [done..|by destruct p]).
  assert (m ≠ b) by (eapply distinct_objects; [done..|by destruct p]).
  run_with (setBuilder_run m old b s Hm).
  by erewrite (createWindowWithTitle_run p m b w σ); [|live..].
Qed.

Lemma setBuilder_redirects_witness :
  (WindowCreationManager_setBuilder 1%positive 4%positive;;
   WindowCreationManager_createWindowWithTitle 1%positive "Mac")
    (State {[1%positive := WindowCreationManager (Some 2%positive);
             2%positive := WindowsWindowBuilder (Some 3%positive);
             3%positive := WindowsWindow "Window: Standard Windows; ";
             4%positive := MacOSWindowBuilder (Some 5%positive);
             5%positive := MacOSWindow ""]} [] "") =
  Some (tt, State (<[5%positive := MacOSWindow
                       "Window: Standard MacOS; Menubar: MacOS default; Window title: Mac;Background color: MacOS default; "]>
                     (<[1%positive := WindowCreationManager (Some 4%positive)]>
                        {[1%positive := WindowCreationManager (Some 2%positive);
                          2%positive := WindowsWindowBuilder (Some 3%positive);
                          3%positive := WindowsWindow "Window: Standard Windows; ";
                          4%positive := MacOSWindowBuilder (Some 5%positive);
                          5%positive := MacOSWindow ""]}))
                  [] "").
Proof.
  exact (setBuilder_redirects MacOS 1%positive (Some 2%positive) 4%positive
           5%positive "" "Mac"
           (State {[1%positive := WindowCreationManager (Some 2%positive);
                    2%positive := WindowsWindowBuilder (Some 3%positive);
                    3%positive := WindowsWindow "Window: Standard Windows; ";
                    4%positive := MacOSWindowBuilder (Some 5%positive);
                    5%positive := MacOSWindow ""]} [] "")
           eq_refl eq_refl eq_refl).
Defined.

(** X6. Deleting the product that [getWindow()] handed out leaves the
    builder pointing to it: until [reset()] is called, every step on the
    builder is undefined, and so is deleting the builder, whose destructor
    would delete the product a second time. *)
Theorem product_deleted_builder_unusable p st b w σ s :
  heap s !! b = Some (builder p (Some w)) →
  heap s !! w = Some (window p σ) →
  (window ← getWindow p b; delete_window p window;; call st b) s = None ∧
  (window ← getWindow p b; delete_window p window;; delete_builder p b) s = None.
Proof.
  intros Hb Hw.
  assert (w ≠ b) by (eapply distinct_objects; [done..|by destruct p]).
  split; run_with (getWindow_run p b w s Hb);
    run_with (delete_window_run p w σ s Hw).
  - apply (call_product_freed p st b w); cbn [heap];
      [by rewrite lookup_delete_ne|apply lookup_delete_eq].
  - apply (delete_builder_product_freed p b w); cbn [heap];
      [by rewrite lookup_delete_ne|apply lookup_delete_eq].
Qed.

Lemma product_deleted_builder_unusable_witness :
  (window ← getWindow MacOS 2%positive;
   delete_window MacOS window;; call addMenubar 2%positive)
    (State {[2%positive := MacOSWindowBuilder (Some 3%positive);
             3%positive := MacOSWindow "Window: Standard MacOS; "]} [] "") = None ∧
  (window ← getWindow MacOS 2%positive;
   delete_window MacOS window;; delete_builder MacOS 2%positive)
    (State {[2%positive := MacOSWindowBuilder (Some 3%positive);
             3%positive := MacOSWindow "Window: Standard MacOS; "]} [] "") = None.
Proof.
  exact (product_deleted_builder_unusable MacOS addMenubar 2%positive 3%positive
           "Window: Standard MacOS; "
           (State {[2%positive := MacOSWindowBuilder (Some 3%positive);
                    3%positive := MacOSWindow "Window: Standard MacOS; "]} [] "")
           eq_refl eq_refl).
Defined.

(** X7. With a [reset()] after the product has been deleted, as
    [client_code] does it, the builder can be deleted: the product handed
    out, the product [reset()] allocated and the builder itself are all
    freed, and no other object is touched. *)
Theorem reset_after_delete p b w σ s :
  heap s !! b = Some (builder p (Some w)) →
  heap s !! w = Some (window p σ) →
  (window ← getWindow p b;
   delete_window p window;;
   reset p b;;
   delete_builder p b) s =
    Some (tt, State (delete b (delete w (heap s)))
                    (news s ++ [window p ""]) (cout s)).
Proof.
  intros Hb Hw.
  assert (w ≠ b) by (eapply distinct_objects; [done..|by destruct p]).
  run_with (getWindow_run p b w s Hb).
  run_with (delete_window_run p w σ s Hw).
  set (s1 := State (delete w (heap s)) _ _).
  assert (Hb1 : heap s1 !! b = Some (builder p (Some w)))
    by (cbn; by rewrite lookup_delete_ne).
  destruct (reset_run p b (Some w) s1 Hb1) as (w' & Hw' & Hreset).
  run_with Hreset. cbn [heap news cout s1] in *.
  assert (w' ≠ b) by (intros ->; congruence).
  erewrite (delete_builder_run p b w'); [|live..]. cbn [heap news cout].
  do 3 f_equal.
  apply lookup_delete_None in Hw' as [->|Hw']; heap_eq.
Qed.

Lemma reset_after_delete_witness :
  (window ← getWindow Windows 2%positive;
   delete_window Windows window;;
   reset Windows 2%positive;;
   delete_builder Windows 2%positive)
    (State {[1%positive := WindowCreationManager (Some 2%positive);
             2%positive := WindowsWindowBuilder (Some 3%positive);
             3%positive := WindowsWindow "Window: Standard Windows; "]} [] "") =
  Some (tt, State (delete 2%positive
                     (delete 3%positive
                        {[1%positive := WindowCreationManager (Some 2%positive);
                          2%positive := WindowsWindowBuilder (Some 3%positive);
                          3%positive := WindowsWindow "Window: Standard Windows; "]}))
                  [WindowsWindow ""] "").
Proof.
  exact (reset_after_delete Windows 2%positive 3%positive "Window: Standard Windows; "
           (State {[1%positive := WindowCreationManager (Some 2%positive);
                    2%positive := WindowsWindowBuilder (Some 3%positive);
                    3%positive := WindowsWindow "Window: Standard Windows; "]} [] "")
           eq_refl eq_refl).
Defined.

(** X8. [reset()] does not delete the product the builder pointed to:
    after [reset()] and the deletion of the builder, that product is still
    live with its description unchanged, and only the builder is gone. *)
Theorem reset_leaves_old_product p b w σ s :
  heap s !! b = Some (builder p (Some w)) →
  heap s !! w = Some (window p σ) →
  (reset p b;; delete_builder p b) s =
    Some (tt, State (delete b (heap s)) (news s ++ [window p ""]) (cout s)) ∧
  delete b (heap s) !! w = Some (window p σ).
Proof.
  intros Hb Hw.
  assert (w ≠ b) by (eapply distinct_objects; [done..|by destruct p]).
  split; [|by rewrite lookup_delete_ne].
  destruct (reset_run p b (Some w) s Hb) as (w' & Hw' & Hreset).
  run_with Hreset.
  assert (w' ≠ b) by by eapply fresh_live.
  erewrite (delete_builder_run p b w'); [|live..]. cbn [heap news cout].
  do 3 f_equal. heap_eq.
Qed.

Lemma reset_leaves_old_product_witness :
  (reset MacOS 2%positive;; delete_builder MacOS 2%positive)
    (State {[2%positive := MacOSWindowBuilder (Some 3%positive);
             3%positive := MacOSWindow "Menubar: MacOS default; "]} [] "") =
    Some (tt, State (delete 2%positive
                       {[2%positive := MacOSWindowBuilder (Some 3%positive);
                         3%positive := MacOSWindow "Menubar: MacOS default; "]})
                    [MacOSWindow ""] "") ∧
  delete 2%positive
    ({[2%positive := MacOSWindowBuilder (Some 3%positive);
       3%positive := MacOSWindow "Menubar: MacOS default; "]} : gmap loc object)
    !! 3%positive = Some (MacOSWindow "Menubar: MacOS default; ").
Proof.
  exact (reset_leaves_old_product MacOS 2%positive 3%positive
           "Menubar: MacOS default; "
           (State {[2%positive := MacOSWindowBuilder (Some 3%positive);
                    3%positive := MacOSWindow "Menubar: MacOS default; "]} [] "")
           eq_refl eq_refl).
Defined.

(** X9. Constructing a builder of either platform gives two new
    objects, the builder and an empty product it points to; deleting the
    builder right away frees both, so the heap is as before. *)
Theorem builder_construct_destroy p s :
  (∃ b w, heap s !! b = None ∧ heap s !! w = None ∧ b ≠ w ∧
     new_builder p s =
       Some (b, State (<[b := builder p (Some w)]> (<[w := window p ""]> (heap s)))
                      (news s ++ [builder p None; window p ""]) (cout s))) ∧
  (this ← new_builder p; delete_builder p this) s =
    Some (tt, State (heap s) (news s ++ [builder p None; window p ""]) (cout s)).
Proof.
  split; [apply new_builder_run|].
  destruct (new_builder_run p s) as (b & w & Hb & Hw & Hbw & Hnew).
  run_with Hnew.
  erewrite (delete_builder_run p b w); [|live..]. cbn [heap news cout].
  do 3 f_equal. heap_eq.
Qed.

(** X10. The title is taken as it is: on the same builder, recipes with
    two different titles leave different descriptions in the product,
    whatever characters the titles contain. *)
Theorem titles_distinguished p m b w σ title1 title2 s :
  heap s !! m = Some (WindowCreationManager (Some b)) →
  heap s !! b = Some (builder p (Some w)) →
  heap s !! w = Some (window p σ) →
  title1 ≠ title2 →
  WindowCreationManager_createWindowWithTitle m title1 s ≠
    WindowCreationManager_createWindowWithTitle m title2 s.
Proof.
  intros Hm Hb Hw Hne.
  rewrite (createWindowWithTitle_run p m b w σ title1 s Hm Hb Hw).
  rewrite (createWindowWithTitle_run p m b w σ title2 s Hm Hb Hw).
  intros Heq. injection Heq as Heq. apply Hne.
  apply (f_equal (λ h : gmap loc object, h !! w)) in Heq.
  rewrite !lookup_insert_eq in Heq.
  cbn [fragment] in Heq.
  assert (Hdescr : ∀ native menubar background title,
    σ +:+ (native +:+ menubar +:+ ("Window title: " +:+ title +:+ ";") +:+ background) =
    (σ +:+ native +:+ menubar +:+ "Window title: ") +:+ (title +:+ ";" +:+ background)).
  { intros. by rewrite !append_assoc. }
  rewrite !Hdescr in Heq.
  assert (Hstructure : ∀ x y, window p x = window p y → x = y)
    by (intros x y Hxy; destruct p; by injection Hxy).
  injection Heq as Heq. apply Hstructure in Heq as Hstructure'.
  clear Hstructure. rename Hstructure' into Hstructure.
  apply String.app_inj in Hstructure.
  by apply append_inj_l in Hstructure.
Qed.

Lemma titles_distinguished_witness :
  WindowCreationManager_createWindowWithTitle 1%positive "a;"
    (State {[1%positive := WindowCreationManager (Some 2%positive);
             2%positive := WindowsWindowBuilder (Some 3%positive);
             3%positive := WindowsWindow ""]} [] "") ≠
  WindowCreationManager_createWindowWithTitle 1%positive "a"
    (State {[1%positive := WindowCreationManager (Some 2%positive);
             2%positive := WindowsWindowBuilder (Some 3%positive);
             3%positive := WindowsWindow ""]} [] "").
Proof.
  apply (titles_distinguished Windows 1%positive 2%positive 3%positive "" "a;" "a"
           (State {[1%positive := WindowCreationManager (Some 2%positive);
                    2%positive := WindowsWindowBuilder (Some 3%positive);
                    3%positive := WindowsWindow ""]} [] ""));
    [reflexivity..|discriminate].
Defined.

(** Where "exactly one family is active in a run" fails: the run of the
    builder demo has two families active, Windows and MacOS; and the run
    of the factory demo with neither macro set has none, [main] returning 1
    before anything is constructed. *)
Lemma one_family_counterexample :
  (∃ s', main init = Some (0, s') ∧
         active_families family s' = [Windows; MacOS] ∧
         ¬ one_family_active family s') ∧
  (∃ s' : state AbstractFactory.object,
         AbstractFactory.main 0 0 init = Some (1, s') ∧
         active_families AbstractFactory.family s' = [] ∧
         ¬ one_family_active AbstractFactory.family s').
Proof.
  split; [apply builder_run_two_families|].
  eexists. split; [reflexivity|]. split; [reflexivity|].
  intros [p Hp]. discriminate Hp.
Qed.

End BuilderFacts.
